(** * First-aid guidance bot: the session state machine of [app.py]

    A shallow embedding of the conversational core of the service:
    the keyword classifier ([identify_emergency]), the node resolver
    ([get_next_interaction]), the phrasing step
    ([_generate_llm_response]), the request handler ([chat]) and the
    idle-timeout task ([reset_if_no_response]).

    The two external collaborators are parameters of the development:
    the graph store answers the three Cypher queries of the resolver, and
    the generative model answers (or fails on) a prompt. *)

From Stdlib Require Import ZArith NArith String Ascii.
From stdpp Require Import base numbers list option gmap sorting.

Local Open Scope Z_scope.

(* ===================================================================== *)
(** * Python strings *)
(* ===================================================================== *)

(** A Python [str] is a sequence of Unicode code points: [len] counts
    code points, and [in] looks for a run of code points. *)
Module PyStr.

Abbreviation pystr := (list N).

(** Literals are written as UTF-8 text and decoded to code points.
    [pending] is the number of continuation bytes still expected and
    [acc] the bits read so far. *)
Fixpoint decode_utf8 (s : string) (pending : nat) (acc : N) : pystr :=
  match s with
  | EmptyString => []
  | String c rest =>
      let b := N_of_ascii c in
      match pending with
      | O =>
          if (b <? 128)%N then b :: decode_utf8 rest 0 0%N
          else if (b <? 224)%N then decode_utf8 rest 1 (b - 192)%N
          else if (b <? 240)%N then decode_utf8 rest 2 (b - 224)%N
          else decode_utf8 rest 3 (b - 240)%N
      | S O => (acc * 64 + (b - 128))%N :: decode_utf8 rest 0 0%N
      | S p => decode_utf8 rest p (acc * 64 + (b - 128))%N
      end
  end.

Definition py (s : string) : pystr := decode_utf8 s 0 0%N.

(** [str.lower()], code point by code point, on the Basic Latin and
    Latin-1 Supplement blocks (the Spanish alphabet lives there); code
    points of other blocks are left as they are. *)
Definition lower_cp (c : N) : N :=
  if ((65 <=? c) && (c <=? 90))%N then (c + 32)%N
  else if ((192 <=? c) && (c <=? 222) && negb (c =? 215))%N then (c + 32)%N
  else c.

Definition lower (s : pystr) : pystr := map lower_cp s.

(** The code points for which [str.isspace()] holds. *)
Definition isspace (c : N) : bool :=
  (((9 <=? c) && (c <=? 13)) || ((28 <=? c) && (c <=? 32))
   || (c =? 133) || (c =? 160) || (c =? 5760)
   || ((8192 <=? c) && (c <=? 8202))
   || (c =? 8232) || (c =? 8233) || (c =? 8239) || (c =? 8287)
   || (c =? 12288))%N.

Fixpoint lstrip (s : pystr) : pystr :=
  match s with
  | [] => []
  | c :: rest => if isspace c then lstrip rest else s
  end.

Definition rstrip (s : pystr) : pystr := rev (lstrip (rev s)).

(** [str.strip()] *)
Definition strip (s : pystr) : pystr := rstrip (lstrip s).

Fixpoint startswith (prefix s : pystr) : bool :=
  match prefix, s with
  | [], _ => true
  | _ :: _, [] => false
  | a :: prefix', b :: s' => (a =? b)%N && startswith prefix' s'
  end.

(** [needle in hay] *)
Fixpoint contains (needle hay : pystr) : bool :=
  startswith needle hay ||
  match hay with
  | [] => false
  | _ :: hay' => contains needle hay'
  end.

(** [a == b] *)
Definition str_eqb (a b : pystr) : bool := bool_decide (a = b).

(** [x in [k1, ..., kn]] for a list of strings *)
Definition str_in_list (x : pystr) (l : list pystr) : bool :=
  existsb (str_eqb x) l.

(** An f-string hole [{v}] applied to a value that may be [None]. *)
Definition fmt (v : option pystr) : pystr :=
  match v with
  | Some s => s
  | None => py "None"
  end.

End PyStr.
Import PyStr.

(** What a Python call does: it returns a value or raises. *)
Inductive exn :=
| KeyError (key : pystr)
| AttributeError.

Inductive outcome (A : Type) :=
| Return (a : A)
| Raise (e : exn).
Arguments Return {A} a.
Arguments Raise {A} e.

(* ===================================================================== *)
(** * Emergency classifier *)
(* ===================================================================== *)

Module Classifier.

(** The [emergency_keywords] dict, in insertion order. *)
Definition emergency_keywords : list (pystr * pystr) :=
  [ (py "ojo", py "Cuerpo Extraño en el Ojo");
    (py "quemadura", py "Quemaduras de Segundo Grado");
    (py "electrica", py "Quemaduras Eléctricas");
    (py "atragantamiento", py "Atragantamiento en Adultos y Niños Mayores");
    (py "convulsion", py "Convulsiones (Post-Convulsión y Protección)");
    (py "diente", py "Dientes Rotos o Caídos");
    (py "respirar", py "Dificultad para Respirar (Leve)");
    (py "fractura", py "Fracturas Evidentes o Sospechosas");
    (py "hemorragia", py "Hemorragia Severa");
    (py "ahogamiento", py "Ahogamiento");
    (py "cabeza", py "Golpe en la Cabeza");
    (py "corte", py "Cortes y Raspaduras Menores");
    (py "esguince", py "Esguinces y Torceduras Leves");
    (py "picadura", py "Picaduras de Insectos (No Alérgicas)");
    (py "golpe", py "Golpes y Contusiones Menores");
    (py "sangrado nasal", py "Sangrado Nasal");
    (py "insolacion", py "Insolación Leve / Agotamiento por Calor");
    (py "hipotermia", py "Hipotermia Leve");
    (py "desmayo", py "Desmayo (Síncope Simple)");
    (py "rcp niños", py "RCP en Niños (1 a 8 años)");
    (py "rcp bebes", py "RCP en Bebés (< 1 año)");
    (py "rcp", py "RCP en Adultos (Solo Manos)");
    (py "revision", py "Revisión Básica de Conciencia y Respiración") ].

(** The message returned when no keyword is found. *)
Definition NOT_IDENTIFIED : pystr :=
  py "No se pudo identificar la emergencia específica. Por favor, describa con más detalle o diga 'ayuda' para obtener un listado de emergencias.".

(** [emergency_keywords.keys()] *)
Definition keys (d : list (pystr * pystr)) : list pystr := map fst d.

(** [d[k]], with [None] for a missing key. *)
Fixpoint dict_get (d : list (pystr * pystr)) (k : pystr) : option pystr :=
  match d with
  | [] => None
  | (k', v) :: d' => if str_eqb k' k then Some v else dict_get d' k
  end.

(** [sorted(ks, key=len, reverse=True)]: descending length; the sort is
    stable, so keys of equal length keep their original order. *)
Fixpoint insert_by_len (k : pystr) (sorted : list pystr) : list pystr :=
  match sorted with
  | [] => [k]
  | h :: t =>
      if (length h <=? length k)%nat then k :: sorted
      else h :: insert_by_len k t
  end.

Definition sorted_by_len_desc (ks : list pystr) : list pystr :=
  foldr insert_by_len [] ks.

(** The [for keyword in sorted_keywords] loop: the first keyword
    contained in the text. *)
Fixpoint first_match (kws : list pystr) (text_lower : pystr) : option pystr :=
  match kws with
  | [] => None
  | keyword :: rest =>
      if contains keyword text_lower then Some keyword
      else first_match rest text_lower
  end.

Definition sorted_keywords : list pystr :=
  sorted_by_len_desc (keys emergency_keywords).

(** [identify_emergency(text)]. The lookup [emergency_keywords[keyword]]
    raises [KeyError] on a missing key. *)
Definition identify_emergency (text : pystr) : outcome pystr :=
  let text_lower := lower text in
  match first_match sorted_keywords text_lower with
  | Some keyword =>
      match dict_get emergency_keywords keyword with
      | Some name => Return name
      | None => Raise (KeyError keyword)
      end
  | None => Return NOT_IDENTIFIED
  end.

End Classifier.
Import Classifier.

(* ===================================================================== *)
(** * Data model *)
(* ===================================================================== *)

(** The values taken by the ["type"] entries and by [original_type]. *)
Inductive NodeType :=
| TQuestion         (* 'question' *)
| TStep             (* 'step' *)
| TEnd              (* 'end' *)
| TClarify          (* 'clarify' *)
| TError            (* 'error' *)
| TInitialMessage.  (* 'initial_message' *)

#[global] Instance NodeType_eq_dec : EqDecision NodeType.
Proof. solve_decision. Defined.

(** The dict returned by [get_next_interaction]. The key ["node_id"] is
    present in some of the returned dicts only: [i_node_id = None] is an
    absent key, [Some None] the key bound to Python's [None]. *)
Record Interaction := {
  i_type : NodeType;
  i_content : option pystr;
  i_node_id : option (option Z);
  i_is_end : bool
}.

(** One entry of [session_states]. *)
Record SessionState := {
  emergency : option pystr;
  last_node_id : option Z;
  last_node_type : option NodeType;
  waiting_for_answer : bool;
  last_interaction_time : Z
}.

(** A [ConversationBufferMemory]; the program never saves a turn to it. *)
Record Memory := { saved_turns : list (pystr * pystr) }.

Definition ConversationBufferMemory : Memory := {| saved_turns := [] |}.

(** Time is counted in microseconds, the resolution of [datetime]. *)
Definition seconds (n : Z) : Z := n * 1000000.

(** An [asyncio.Task] running [reset_if_no_response(session_id)]. *)
Inductive TaskStatus := Sleeping | Finished | Cancelled.

Record Task := {
  task_session : pystr;
  wake_at : Z;
  status : TaskStatus
}.

(** The arguments of one call of [_generate_llm_response], kept in a
    trace so that statements can speak about how the phrasing step was
    invoked. *)
Record PhraseCall := {
  pc_raw_content : option pystr;
  pc_session_id : pystr;
  pc_is_emergency_end : bool;
  pc_original_type : NodeType
}.

(** The process state: the three module-level dicts, the tasks known to
    the event loop (a task handle is its index), the clock, and the trace
    of phrasing calls. *)
Record World := {
  session_states : gmap pystr SessionState;
  timeout_tasks : gmap pystr nat;
  conversation_memories : gmap pystr Memory;
  loop_tasks : list Task;
  now : Z;
  phrase_log : list PhraseCall
}.

Definition initial_world (t0 : Z) : World :=
  {| session_states := ∅; timeout_tasks := ∅; conversation_memories := ∅;
     loop_tasks := []; now := t0; phrase_log := [] |}.

Definition with_session_states (f : gmap pystr SessionState → gmap pystr SessionState)
    (w : World) : World :=
  {| session_states := f (session_states w); timeout_tasks := timeout_tasks w;
     conversation_memories := conversation_memories w;
     loop_tasks := loop_tasks w; now := now w; phrase_log := phrase_log w |}.

Definition with_timeout_tasks (f : gmap pystr nat → gmap pystr nat) (w : World) : World :=
  {| session_states := session_states w; timeout_tasks := f (timeout_tasks w);
     conversation_memories := conversation_memories w;
     loop_tasks := loop_tasks w; now := now w; phrase_log := phrase_log w |}.

Definition with_conversation_memories (f : gmap pystr Memory → gmap pystr Memory)
    (w : World) : World :=
  {| session_states := session_states w; timeout_tasks := timeout_tasks w;
     conversation_memories := f (conversation_memories w);
     loop_tasks := loop_tasks w; now := now w; phrase_log := phrase_log w |}.

Definition with_loop_tasks (f : list Task → list Task) (w : World) : World :=
  {| session_states := session_states w; timeout_tasks := timeout_tasks w;
     conversation_memories := conversation_memories w;
     loop_tasks := f (loop_tasks w); now := now w; phrase_log := phrase_log w |}.

Definition with_now (f : Z → Z) (w : World) : World :=
  {| session_states := session_states w; timeout_tasks := timeout_tasks w;
     conversation_memories := conversation_memories w;
     loop_tasks := loop_tasks w; now := f (now w); phrase_log := phrase_log w |}.

Definition with_phrase_log (f : list PhraseCall → list PhraseCall) (w : World) : World :=
  {| session_states := session_states w; timeout_tasks := timeout_tasks w;
     conversation_memories := conversation_memories w;
     loop_tasks := loop_tasks w; now := now w; phrase_log := f (phrase_log w) |}.

(* ===================================================================== *)
(** * Effects: global state and exceptions *)
(* ===================================================================== *)

(** A computation reads and mutates the process state and either returns
    or raises; what was mutated before an exception stays mutated. *)
Definition M (A : Type) : Type := World → outcome A * World.

Definition ret {A} (a : A) : M A := fun w => (Return a, w).

Definition raise {A} (e : exn) : M A := fun w => (Raise e, w).

Definition bind {A B} (c : M A) (k : A → M B) : M B :=
  fun w =>
    match c w with
    | (Return a, w') => k a w'
    | (Raise e, w') => (Raise e, w')
    end.

Definition lift {A} (o : outcome A) : M A := fun w => (o, w).

Definition gets {A} (f : World → A) : M A := fun w => (Return (f w), w).

Definition modify (f : World → World) : M unit := fun w => (Return tt, f w).

Arguments ret {A} a w /.
Arguments raise {A} e w /.
Arguments bind {A B} c k w /.
Arguments lift {A} o w /.
Arguments gets {A} f w /.
Arguments modify f w /.

Notation "x <~ c ;; k" := (bind c (fun x => k))
  (at level 100, c at next level, right associativity).
Notation "c ;;; k" := (bind c (fun _ => k))
  (at level 100, right associativity).

(** [session_states[session_id][field]] *)
Definition read_state {A} (session_id : pystr) (field : SessionState → A) : M A :=
  fun w =>
    match session_states w !! session_id with
    | Some state => (Return (field state), w)
    | None => (Raise (KeyError session_id), w)
    end.

(** [state[field] = v] on the dict stored under [session_id] *)
Definition update_state (session_id : pystr) (f : SessionState → SessionState) : M unit :=
  modify (with_session_states (alter f session_id)).

Arguments read_state {A} session_id field w /.
Arguments update_state session_id f w /.

Definition set_emergency (v : option pystr) (s : SessionState) : SessionState :=
  {| emergency := v; last_node_id := last_node_id s;
     last_node_type := last_node_type s;
     waiting_for_answer := waiting_for_answer s;
     last_interaction_time := last_interaction_time s |}.

Definition set_last_node_id (v : option Z) (s : SessionState) : SessionState :=
  {| emergency := emergency s; last_node_id := v;
     last_node_type := last_node_type s;
     waiting_for_answer := waiting_for_answer s;
     last_interaction_time := last_interaction_time s |}.

Definition set_last_node_type (v : option NodeType) (s : SessionState) : SessionState :=
  {| emergency := emergency s; last_node_id := last_node_id s;
     last_node_type := v;
     waiting_for_answer := waiting_for_answer s;
     last_interaction_time := last_interaction_time s |}.

Definition set_waiting_for_answer (v : bool) (s : SessionState) : SessionState :=
  {| emergency := emergency s; last_node_id := last_node_id s;
     last_node_type := last_node_type s;
     waiting_for_answer := v;
     last_interaction_time := last_interaction_time s |}.

Definition set_last_interaction_time (v : Z) (s : SessionState) : SessionState :=
  {| emergency := emergency s; last_node_id := last_node_id s;
     last_node_type := last_node_type s;
     waiting_for_answer := waiting_for_answer s;
     last_interaction_time := v |}.

(** The dict literal written at session creation and at the idle reset. *)
Definition fresh_state (t : Z) : SessionState :=
  {| emergency := None; last_node_id := None; last_node_type := None;
     waiting_for_answer := false; last_interaction_time := t |}.

(* ===================================================================== *)
(** * Collaborators *)
(* ===================================================================== *)

(** The labels of the two answer relationships of an [Evaluacion] node. *)
Inductive Rel := SI | NO.

(** The three Cypher queries of [get_next_interaction], with their
    parameters. *)
Inductive Query :=
| FirstEvaluation (name : option pystr)
    (* MATCH (e:Emergencia {nombre: $name})-[:TIENE_EVALUACION]->(ev)
       ... ORDER BY ID(ev) LIMIT 1 *)
| AnswerStep (rel_type : Rel) (last_node_id : option Z)
    (* MATCH (ev:Evaluacion) WHERE ID(ev) = $last_node_id
       MATCH (ev)-[rel:{rel_type}]->(paso:Paso) ... ORDER BY paso.orden LIMIT 1 *)
| FollowingStep (last_node_id : option Z).
    (* MATCH (current_paso:Paso) WHERE ID(current_paso) = $last_node_id
       OPTIONAL MATCH (current_paso)-[:SIGUE]->(next_paso:Paso) ...
       ORDER BY next_paso.orden LIMIT 1 *)

(** A result row: the [content] and [node_id] columns, each possibly
    null. The [type] column is a constant of each query. *)
Record Row := {
  r_content : option pystr;
  r_node_id : option Z
}.

(** The prompt sent to the generative model. *)
Record GeminiCall := {
  g_system_instruction : pystr;
  g_history : list (pystr * pystr);
  g_prompt : option pystr
}.

(** Truth value of a column: null and the empty string are false. *)
Definition truthy (v : option pystr) : bool :=
  match v with
  | Some (_ :: _) => true
  | _ => false
  end.

Definition is_None {A} (v : option A) : bool :=
  match v with
  | None => true
  | Some _ => false
  end.

Definition MSG_NO_EVALUATIONS : pystr :=
  py "No se encontraron evaluaciones para esta emergencia. Por favor, busque ayuda médica.".
Definition MSG_NO_NEXT_STEP : pystr :=
  py "No se encontró el paso siguiente para su respuesta. Por favor, busque ayuda médica.".
Definition MSG_CLARIFY : pystr :=
  py "Por favor, responda 'sí' o 'no' para continuar.".
Definition MSG_END_OF_BRANCH : pystr :=
  py "Hemos llegado al final de los pasos para esta rama. Por favor, busque ayuda médica si es necesario.".
Definition MSG_UNEXPECTED : pystr :=
  py "Ocurrió un error inesperado en el flujo de la conversación.".

(** The dict literals of [get_next_interaction]. *)
Definition found (t : NodeType) (record : Row) : Interaction :=
  {| i_type := t; i_content := r_content record;
     i_node_id := Some (r_node_id record); i_is_end := false |}.

Definition without_node_id (t : NodeType) (msg : pystr) (is_end : bool) : Interaction :=
  {| i_type := t; i_content := Some msg; i_node_id := None; i_is_end := is_end |}.

(** The yes/no reading of an answer (lines 110-116). *)
Definition answer_rel_type (user_input_text : pystr) : option Rel :=
  let response_lower := strip (lower user_input_text) in
  if contains (py "si") response_lower || contains (py "sí") response_lower
     || contains (py "yes") response_lower
  then Some SI
  else if contains (py "no") response_lower || contains (py "not") response_lower
  then Some NO
  else None.

Definition RESET_COMMANDS : list pystr :=
  [py "iniciar"; py "empezar"; py "reset"; py "reiniciar"; py "comenzar"].

Definition WELCOME : pystr :=
  py "Hola, soy tu guía de primeros auxilios. Por favor, describe brevemente la emergencia para comenzar (ej: 'Me corté un dedo', 'Alguien se atraganta').".

Definition SYSTEM_INSTRUCTION : pystr :=
  py "Eres un asistente de primeros auxilios. Tu objetivo es comunicar el paso o pregunta que te proporcionaré de manera "
  ++ py "extremadamente CLARA, SENCILLA y CALMADA. Usa un tono AMABLE y RECONFORTANTE. "
  ++ py "Cada respuesta debe ser breve y al punto, como si estuvieras guiando a alguien en una situación de estrés."
  ++ py "Si te paso el siguiente texto como paso o pregunta: ''No se pudo identificar la emergencia específica. Por favor, describa con más detalle o diga 'ayuda' para obtener un listado de emergencias.'' "
  ++ py "debes responder: que la emergencia está fuera de tu alcance y que se llame a la ambulancia lo más pronto posible, importante: No le pidas datos en esa situación. ".

Definition SYSTEM_INSTRUCTION_END : pystr :=
  [10%N]
  ++ py "IMPORTANTE: Si el flujo de primeros auxilios ha terminado o no hay una guía clara, "
  ++ py "tu prioridad es indicar al usuario que llame a una ambulancia (160 en Bolivia) INMEDIATAMENTE. "
  ++ py "Asegúrate de que este mensaje sea el principal y muy claro, reforzando la urgencia. "
  ++ py "No extiendas el mensaje con otra información, solo la llamada a emergencias.".

Definition FALLBACK_END : pystr :=
  py "Lo siento, no puedo procesar la información en este momento. Por favor, ¡comuníquese con una ambulancia al 160 lo antes posible!".

Definition fallback (raw_content : option pystr) : pystr :=
  py "Lo siento, tuve un problema al generar la respuesta. El mensaje original era: "
  ++ fmt raw_content ++ py ". Por favor, busque ayuda médica si es necesario.".

Definition TIMEOUT_DELAY : Z := seconds 60.
Definition GRACE_WINDOW : Z := seconds 55.

Section Service.

(** [result.single()] of a query: a row, or [None]. *)
Variable graph : Query → option Row.

(** The text of the model's reply; [None] when anything inside the [try]
    block of [_generate_llm_response] raises. *)
Variable gemini : GeminiCall → option pystr.

(* ===================================================================== *)
(** * Node resolver *)
(* ===================================================================== *)

Definition get_next_interaction
    (session_id : pystr)
    (emergency_name : option pystr)
    (user_input_text : option pystr)
    (last_node_id : option Z)
    (last_node_type : option NodeType)
    (is_waiting_for_answer : bool) : outcome Interaction :=
  if is_None last_node_id && negb is_waiting_for_answer then
    match graph (FirstEvaluation emergency_name) with
    | Some record => Return (found TQuestion record)
    | None => Return (without_node_id TEnd MSG_NO_EVALUATIONS true)
    end
  else if is_waiting_for_answer && bool_decide (last_node_type = Some TQuestion) then
    match user_input_text with
    | None => Raise AttributeError  (* None.lower() *)
    | Some text =>
        match answer_rel_type text with
        | Some rel_type =>
            match graph (AnswerStep rel_type last_node_id) with
            | Some record => Return (found TStep record)
            | None => Return (without_node_id TEnd MSG_NO_NEXT_STEP true)
            end
        | None => Return (without_node_id TClarify MSG_CLARIFY false)
        end
    end
  else if bool_decide (last_node_type = Some TStep) && negb is_waiting_for_answer then
    match graph (FollowingStep last_node_id) with
    | Some record =>
        if truthy (r_content record) then Return (found TStep record)
        else Return (without_node_id TEnd MSG_END_OF_BRANCH true)
    | None => Return (without_node_id TEnd MSG_END_OF_BRANCH true)
    end
  else Return (without_node_id TError MSG_UNEXPECTED true).

(* ===================================================================== *)
(** * Phrasing step *)
(* ===================================================================== *)

Definition _generate_llm_response
    (raw_content : option pystr) (session_id : pystr)
    (is_emergency_end : bool) (original_type : NodeType) : M pystr :=
  modify (with_phrase_log (fun log => log ++
    [{| pc_raw_content := raw_content; pc_session_id := session_id;
        pc_is_emergency_end := is_emergency_end;
        pc_original_type := original_type |}])) ;;;
  stored <~ gets (fun w => conversation_memories w !! session_id) ;;
  memory <~ match stored with
            | Some memory => ret memory
            | None =>
                modify (with_conversation_memories
                          (insert session_id ConversationBufferMemory)) ;;;
                ret ConversationBufferMemory
            end ;;
  let prompt_text :=
    match original_type with
    | TQuestion =>
        Some (py "La pregunta es: '" ++ fmt raw_content
              ++ py "'. Por favor, formúlala en un tono calmado y amigable.")
    | TStep =>
        Some (py "El paso a seguir es: '" ++ fmt raw_content
              ++ py "'. Por favor, explícalo de forma calmada y sencilla.")
    | _ => raw_content
    end in
  let system_instruction :=
    if is_emergency_end then SYSTEM_INSTRUCTION ++ SYSTEM_INSTRUCTION_END
    else SYSTEM_INSTRUCTION in
  let prompt_text :=
    if is_emergency_end then
      Some (py "La guía no puede continuar o ha concluido. Mensaje del sistema: '"
            ++ fmt raw_content ++ py "'. Debes indicar que llamen a emergencias.")
    else prompt_text in
  match gemini {| g_system_instruction := system_instruction;
                  g_history := saved_turns memory;
                  g_prompt := prompt_text |} with
  | Some text => ret text
  | None =>
      if is_emergency_end then ret FALLBACK_END
      else ret (fallback raw_content)
  end.

(* ===================================================================== *)
(** * Idle-timeout task *)
(* ===================================================================== *)

(** [asyncio.create_task(reset_if_no_response(session_id))]: the task
    goes to sleep for sixty seconds. Returns the handle of the task. *)
Definition create_task (session_id : pystr) : M nat :=
  fun w =>
    (Return (length (loop_tasks w)),
     with_loop_tasks (fun ts => ts ++
       [{| task_session := session_id; wake_at := now w + TIMEOUT_DELAY;
           status := Sleeping |}]) w).

Definition set_status (s : TaskStatus) (t : Task) : Task :=
  {| task_session := task_session t; wake_at := wake_at t; status := s |}.

(** [task.cancel()]: a task that has finished is left alone. *)
Definition cancelled (t : Task) : Task :=
  match status t with
  | Sleeping => set_status Cancelled t
  | _ => t
  end.

Definition cancel (handle : nat) : M unit :=
  modify (with_loop_tasks (alter cancelled handle)).

(** The body of [reset_if_no_response] after the sleep. *)
Definition reset_if_no_response (session_id : pystr) : M unit :=
  stored <~ gets (fun w => session_states w !! session_id) ;;
  match stored with
  | Some state =>
      t <~ gets now ;;
      if bool_decide (GRACE_WINDOW ≤ t - last_interaction_time state) then
        modify (with_session_states (insert session_id (fresh_state t))) ;;;
        modify (with_conversation_memories (delete session_id))
      else ret tt
  | None => ret tt
  end.

(** The event loop resumes a task: nothing happens unless the task is
    still asleep and its sixty seconds have passed. *)
Definition wake (handle : nat) : M unit :=
  task <~ gets (fun w => loop_tasks w !! handle) ;;
  t <~ gets now ;;
  match task with
  | Some task =>
      match status task with
      | Sleeping =>
          if bool_decide (wake_at task ≤ t) then
            reset_if_no_response (task_session task) ;;;
            modify (with_loop_tasks (alter (set_status Finished) handle))
          else ret tt
      | _ => ret tt
      end
  | None => ret tt
  end.

(* ===================================================================== *)
(** * Request handler *)
(* ===================================================================== *)

Record UserMessage := {
  text : pystr;
  session_id : pystr
}.

(** [next_interaction["node_id"]] *)
Definition node_id_of (next_interaction : Interaction) : M (option Z) :=
  match i_node_id next_interaction with
  | Some v => ret v
  | None => raise (KeyError (py "node_id"))
  end.

(** The six statements that follow each call of the resolver (lines
    442-447, 469-474 and 486-491): they give the raw content, the
    response type and the end-of-flow flag. *)
Definition record_interaction (sid : pystr) (next_interaction : Interaction)
    : M (option pystr * NodeType * bool) :=
  let raw_response_content := i_content next_interaction in
  let response_type := i_type next_interaction in
  node_id <~ node_id_of next_interaction ;;
  update_state sid (set_last_node_id node_id) ;;;
  update_state sid (set_last_node_type (Some (i_type next_interaction))) ;;;
  update_state sid (set_waiting_for_answer
                      (bool_decide (i_type next_interaction = TQuestion))) ;;;
  ret (raw_response_content, response_type, i_is_end next_interaction).

(** Lines 399-411: the dict of a new session is created, and the time
    of the last interaction is refreshed. *)
Definition open_session (sid : pystr) : M unit :=
  known <~ gets (fun w => session_states w !! sid) ;;
  t <~ gets now ;;
  (if is_None known then
     modify (with_session_states (insert sid (fresh_state t))) ;;;
     modify (with_conversation_memories (insert sid ConversationBufferMemory))
   else ret tt) ;;;
  update_state sid (set_last_interaction_time t).

(** Lines 413-416: the previous timeout task of the session is cancelled
    and forgotten. *)
Definition cancel_previous_timeout (sid : pystr) : M unit :=
  previous <~ gets (fun w => timeout_tasks w !! sid) ;;
  match previous with
  | Some handle =>
      cancel handle ;;;
      modify (with_timeout_tasks (delete sid))
  | None => ret tt
  end.

(** Lines 418-496: the four branches of the handler. The result is
    [(raw_response_content, response_type, is_flow_end)]. *)
Definition dispatch (message : UserMessage) : M (option pystr * NodeType * bool) :=
  let sid := session_id message in
  let user_text_lower := strip (lower (text message)) in
  state_last_node_type <~ read_state sid last_node_type ;;
  state_waiting <~ read_state sid waiting_for_answer ;;
  state_emergency <~ read_state sid emergency ;;
  state_last_node_id <~ read_state sid last_node_id ;;
  if str_in_list user_text_lower RESET_COMMANDS then
    update_state sid (set_emergency None) ;;;
    update_state sid (set_last_node_id None) ;;;
    update_state sid (set_last_node_type None) ;;;
    update_state sid (set_waiting_for_answer false) ;;;
    ret (Some WELCOME, TInitialMessage, false)
  else if str_eqb user_text_lower (py "siguiente paso")
          && bool_decide (state_last_node_type = Some TStep)
          && negb state_waiting then
    next_interaction <~ lift (get_next_interaction sid state_emergency None
                                state_last_node_id state_last_node_type false) ;;
    record_interaction sid next_interaction
  else if is_None state_emergency
          || bool_decide (state_last_node_type = Some TEnd) then
    emergency_identified <~ lift (identify_emergency (text message)) ;;
    (if str_eqb emergency_identified NOT_IDENTIFIED then
       update_state sid (set_emergency None) ;;;
       update_state sid (set_last_node_type None) ;;;
       update_state sid (set_last_node_id None) ;;;
       update_state sid (set_waiting_for_answer false) ;;;
       ret (Some emergency_identified, TClarify, false)
     else
       update_state sid (set_emergency (Some emergency_identified)) ;;;
       update_state sid (set_last_node_id None) ;;;
       update_state sid (set_last_node_type None) ;;;
       update_state sid (set_waiting_for_answer false) ;;;
       next_interaction <~ lift (get_next_interaction sid
                                   (Some emergency_identified) None
                                   None None false) ;;
       record_interaction sid next_interaction)
  else
    next_interaction <~ lift (get_next_interaction sid state_emergency
                                (Some (text message)) state_last_node_id
                                state_last_node_type state_waiting) ;;
    outputs <~ record_interaction sid next_interaction ;;
    (if outputs.2 then
       update_state sid (set_emergency None) ;;;
       update_state sid (set_last_node_type (Some TEnd))
     else ret tt) ;;;
    ret outputs.

(** Lines 506-508: a timeout task is armed while a question is open. *)
Definition schedule_timeout (sid : pystr) : M unit :=
  waiting <~ read_state sid waiting_for_answer ;;
  if waiting then
    handle <~ create_task sid ;;
    modify (with_timeout_tasks (insert sid handle))
  else ret tt.

(** The handler of [POST /chat]; it returns the text of the response. *)
Definition chat (message : UserMessage) : M pystr :=
  let sid := session_id message in
  open_session sid ;;;
  cancel_previous_timeout sid ;;;
  outputs <~ dispatch message ;;
  let '(raw_response_content, response_type, is_flow_end) := outputs in
  final_response_content <~ _generate_llm_response raw_response_content sid
                              is_flow_end response_type ;;
  schedule_timeout sid ;;;
  ret final_response_content.

(** The status the web framework answers with: 200 with the returned
    body, 500 when the handler raises. *)
Definition status_code {A} (o : outcome A) : Z :=
  match o with
  | Return _ => 200
  | Raise _ => 500
  end.

(* ===================================================================== *)
(** * The process as a transition system *)
(* ===================================================================== *)

(** The handler contains no suspension point that yields to the event
    loop (the graph and model calls are blocking calls), so a request is
    one transition; the other transitions are the passing of time and the
    event loop resuming a timeout task. *)
Inductive Event :=
| Request (message : UserMessage)
| Elapse (dt : N)
| Wake (handle : nat).

Definition run (e : Event) (w : World) : World :=
  match e with
  | Request message => (chat message w).2
  | Elapse dt => with_now (fun t => t + Z.of_N dt) w
  | Wake handle => (wake handle w).2
  end.

Definition run_all (es : list Event) (w : World) : World :=
  foldl (fun w e => run e w) w es.

End Service.

(** The four conversational entries of a session's dict. *)
Definition conversation (s : SessionState)
    : option pystr * option Z * option NodeType * bool :=
  (emergency s, last_node_id s, last_node_type s, waiting_for_answer s).

(** The invariant of the session table: a session waits for an answer
    only after a question. *)
Definition waiting_after_question (w : World) : Prop :=
  ∀ sid state,
    session_states w !! sid = Some state →
    waiting_for_answer state = true →
    last_node_type state = Some TQuestion.

(** The order of [sorted_keywords]: a keyword comes before every keyword
    that is not longer. *)
Definition longer_first (a b : pystr) : Prop := (length b ≤ length a)%nat.

(** The affirmative and negative tests of the answer query. *)
Definition affirmative (response_lower : pystr) : bool :=
  contains (py "si") response_lower || contains (py "sí") response_lower
  || contains (py "yes") response_lower.

Definition negative (response_lower : pystr) : bool :=
  contains (py "no") response_lower || contains (py "not") response_lower.


(** A computation keeps a property of the process state. *)
Definition preserves {A} (I : World → Prop) (c : M A) : Prop :=
  ∀ w, I w → I (c w).2.

(* ===================================================================== *)
(** * A sample deployment *)
(* ===================================================================== *)

(** A small decision graph used in the examples: "Hemorragia Severa" has
    one evaluation (node 10) whose SI relationship leads to step 20,
    followed by step 21, the last of its branch; the evaluation has no NO
    relationship, and no other emergency has evaluations. For the last
    step, the OPTIONAL MATCH of the continuation query gives a row of
    nulls. *)
Definition sample_graph (q : Query) : option Row :=
  match q with
  | FirstEvaluation (Some name) =>
      if str_eqb name (py "Hemorragia Severa") then
        Some {| r_content := Some (py "¿La herida sangra abundantemente?");
                r_node_id := Some 10 |}
      else None
  | AnswerStep SI (Some 10) =>
      Some {| r_content := Some (py "Presione la herida con un paño limpio.");
              r_node_id := Some 20 |}
  | FollowingStep (Some 20) =>
      Some {| r_content := Some (py "Eleve la extremidad afectada.");
              r_node_id := Some 21 |}
  | FollowingStep (Some 21) =>
      Some {| r_content := None; r_node_id := None |}
  | _ => None
  end.

(** A model that answers with the prompt it was given. *)
Definition echo_model (call : GeminiCall) : option pystr :=
  Some (fmt (g_prompt call)).

Definition s1 : pystr := py "s1".

Definition says (t : string) : UserMessage :=
  {| text := py t; session_id := s1 |}.

Definition sample_run (es : list Event) : World :=
  run_all sample_graph echo_model es (initial_world 0).

(** The session has been asked the first question. *)
Definition asked : World :=
  sample_run [Request (says "Tengo una hemorragia")].

(** The session has received the last step of its branch. *)
Definition at_last_step : World :=
  sample_run [Request (says "Tengo una hemorragia"); Request (says "sí");
              Request (says "ok")].

(** A question asked at time 0 is answered 56 seconds later, and four
    more seconds pass. *)
Definition after_late_answer : World :=
  sample_run [Request (says "Tengo una hemorragia"); Elapse 56000000;
              Request (says "sí"); Elapse 4000000].

(** A question asked at time 0 is left unanswered for sixty seconds. *)
Definition unanswered : World :=
  sample_run [Request (says "Tengo una hemorragia"); Elapse 60000000].

(* ===================================================================== *)
(** * Notions used by the further properties *)
(* ===================================================================== *)


(** [x] occurs in [l] with [y] somewhere after it. *)
Definition before {A} (x y : A) (l : list A) : Prop :=
  ∃ l1 l2, l = l1 ++ x :: l2 ∧ y ∈ l2.

(** The priority of the keywords of a dict with keys [ks]: longer first,
    and among keywords of one length the one inserted first. *)
Definition outranks (ks : list pystr) (x y : pystr) : Prop :=
  (length y < length x)%nat ∨ (length y = length x ∧ before x y ks).

(** [emergency_keywords.values()] *)
Definition values (d : list (pystr * pystr)) : list pystr := map snd d.

(** The conversational entries of a session; a session that has not
    written yet counts as a new one. *)
Definition conversation_of (w : World) (sid : pystr)
    : option pystr * option Z * option NodeType * bool :=
  from_option conversation (None, None, None, false) (session_states w !! sid).

(** The record of one call of the phrasing step. *)
Definition phrase_call (raw : option pystr) (sid : pystr) (is_end : bool)
    (type : NodeType) : PhraseCall :=
  {| pc_raw_content := raw; pc_session_id := sid;
     pc_is_emergency_end := is_end; pc_original_type := type |}.

(** The timeout task created at time [t] for a session. *)
Definition new_task (sid : pystr) (t : Z) : Task :=
  {| task_session := sid; wake_at := t + seconds 60; status := Sleeping |}.

(** The three shapes of a session's dict. *)
Definition reachable_shape (s : SessionState) : Prop :=
  (last_node_type s = None ∧ last_node_id s = None
   ∧ waiting_for_answer s = false)
  ∨ (last_node_type s = Some TQuestion ∧ waiting_for_answer s = true
     ∧ is_Some (emergency s))
  ∨ (last_node_type s = Some TStep ∧ waiting_for_answer s = false
     ∧ is_Some (emergency s)).

Definition sessions_shaped (w : World) : Prop :=
  ∀ sid state, session_states w !! sid = Some state → reachable_shape state.


(** The session has answered yes and stands on the first step. *)
Definition in_step_flow : World :=
  sample_run [Request (says "Tengo una hemorragia"); Request (says "sí")].


(** A message of a second session. *)
Definition s2_says (t : string) : UserMessage :=
  {| text := py t; session_id := py "s2" |}.

(* ===================================================================== *)
(** * Strings: examples *)
(* ===================================================================== *)

Example py_si : py "sí" = [115; 237]%N.
Proof. reflexivity. Qed.

Example lower_strip_example : strip (lower (py "  REINICIAR ")) = py "reiniciar".
Proof. reflexivity. Qed.

Example contains_example : contains (py "si") (py "siguiente") = true.
Proof. reflexivity. Qed.

Example len_counts_code_points : length (py "rcp niños") = 9%nat.
Proof. reflexivity. Qed.

(* ===================================================================== *)
(** * The classifier *)
(* ===================================================================== *)

Section ClassifierFacts.

Lemma elem_of_insert_by_len (x k : pystr) (l : list pystr) :
  x ∈ insert_by_len k l ↔ x = k ∨ x ∈ l.
Proof.
  induction l as [|h t IH]; simpl.
  - rewrite list_elem_of_singleton. split; [by left|].
    intros [Hx|Hx]; [done | by apply elem_of_nil in Hx].
  - destruct (length h <=? length k)%nat.
    + rewrite elem_of_cons. reflexivity.
    + rewrite !elem_of_cons, IH. tauto.
Qed.

Lemma elem_of_sorted_by_len_desc (x : pystr) (ks : list pystr) :
  x ∈ sorted_by_len_desc ks ↔ x ∈ ks.
Proof.
  induction ks as [|k ks IH]; simpl; [reflexivity|].
  rewrite elem_of_insert_by_len, elem_of_cons, IH. reflexivity.
Qed.

Lemma insert_by_len_sorted (k : pystr) (l : list pystr) :
  StronglySorted longer_first l → StronglySorted longer_first (insert_by_len k l).
Proof.
  induction 1 as [|h t Hsorted IH Hall]; simpl.
  - repeat constructor.
  - destruct (length h <=? length k)%nat eqn:Hcmp.
    + apply Nat.leb_le in Hcmp.
      constructor; [by constructor|].
      constructor; [exact Hcmp|].
      eapply Forall_impl; [exact Hall|].
      unfold longer_first. intros; lia.
    + apply Nat.leb_gt in Hcmp.
      constructor; [exact IH|].
      apply Forall_forall. intros x Hx.
      apply elem_of_insert_by_len in Hx as [->|Hx].
      * unfold longer_first. lia.
      * rewrite Forall_forall in Hall. by apply Hall.
Qed.

Lemma sorted_by_len_desc_sorted (ks : list pystr) :
  StronglySorted longer_first (sorted_by_len_desc ks).
Proof.
  induction ks; simpl; [constructor | by apply insert_by_len_sorted].
Qed.

Lemma first_match_None (kws : list pystr) (t : pystr) :
  first_match kws t = None ↔ ∀ k, k ∈ kws → contains k t = false.
Proof.
  induction kws as [|k kws IH]; simpl.
  - split; [intros _ k Hk; by apply elem_of_nil in Hk | done].
  - destruct (contains k t) eqn:Hk.
    + split; [done|]. intros H. specialize (H k). rewrite Hk in H.
      discriminate H. by left.
    + rewrite IH. split.
      * intros H k' [->|Hin]%elem_of_cons; auto.
      * intros H k' Hin. apply H. by right.
Qed.

Lemma first_match_Some (kws : list pystr) (t k : pystr) :
  first_match kws t = Some k → k ∈ kws ∧ contains k t = true.
Proof.
  induction kws as [|h kws IH]; simpl; [done|].
  destruct (contains h t) eqn:Hh.
  - intros [= <-]. split; [by left | done].
  - intros [Hin Hc]%IH. split; [by right | done].
Qed.

Lemma first_match_longest (kws : list pystr) (t k : pystr) :
  StronglySorted longer_first kws →
  first_match kws t = Some k →
  ∀ k', k' ∈ kws → contains k' t = true → (length k' ≤ length k)%nat.
Proof.
  induction 1 as [|h kws Hsorted IH Hall]; simpl; [done|].
  destruct (contains h t) eqn:Hh.
  - intros [= <-] k' [->|Hin]%elem_of_cons _; [done|].
    rewrite Forall_forall in Hall. by apply Hall.
  - intros Hk k' [->|Hin]%elem_of_cons Hc; [congruence|].
    by apply IH.
Qed.

Lemma dict_get_keys (d : list (pystr * pystr)) (k : pystr) :
  k ∈ keys d → is_Some (dict_get d k).
Proof.
  induction d as [|[k' v] d IH]; simpl.
  - by intros ?%elem_of_nil.
  - intros Hin. unfold str_eqb. case_bool_decide as Heq; [by eexists|].
    apply elem_of_cons in Hin as [->|Hin]; [done | by apply IH].
Qed.

(** The dict lookup of [identify_emergency] never fails: the function
    always returns. *)
Lemma identify_emergency_returns (text : pystr) :
  ∃ name, identify_emergency text = Return name.
Proof.
  unfold identify_emergency.
  destruct (first_match sorted_keywords (lower text)) as [k|] eqn:Hk;
    [|by eexists].
  apply first_match_Some in Hk as [Hin _].
  unfold sorted_keywords in Hin. rewrite elem_of_sorted_by_len_desc in Hin.
  apply dict_get_keys in Hin as [name ->].
  by eexists.
Qed.

End ClassifierFacts.

(** C9. Keywords are tried longest first: "emergencia rcp bebes en curso",
    which contains both "rcp" and "rcp bebes", is classified as
    "RCP en Bebés (< 1 año)"; and for every text containing some keyword,
    the classifier returns the emergency of a keyword that occurs in the
    lowercased text and that no other occurring keyword exceeds in
    length. *)
Theorem identify_emergency_longest_keyword_wins :
  (contains (py "rcp") (lower (py "emergencia rcp bebes en curso")) = true
   ∧ contains (py "rcp bebes") (lower (py "emergencia rcp bebes en curso")) = true
   ∧ identify_emergency (py "emergencia rcp bebes en curso")
     = Return (py "RCP en Bebés (< 1 año)"))
  ∧ ∀ text keyword,
      keyword ∈ keys emergency_keywords →
      contains keyword (lower text) = true →
      ∃ winner name,
        winner ∈ keys emergency_keywords
        ∧ contains winner (lower text) = true
        ∧ dict_get emergency_keywords winner = Some name
        ∧ identify_emergency text = Return name
        ∧ ∀ other,
            other ∈ keys emergency_keywords →
            contains other (lower text) = true →
            (length other ≤ length winner)%nat.
Proof.
  split; [by vm_compute|].
  intros text keyword Hkey Hoccurs.
  unfold identify_emergency.
  destruct (first_match sorted_keywords (lower text)) as [winner|] eqn:Hfirst.
  - pose proof (first_match_Some _ _ _ Hfirst) as [Hin Hc].
    unfold sorted_keywords in Hin. rewrite elem_of_sorted_by_len_desc in Hin.
    destruct (dict_get_keys _ _ Hin) as [name Hname].
    exists winner, name. rewrite Hname. repeat split; try done.
    intros other Hother Hoc.
    eapply first_match_longest;
      [apply sorted_by_len_desc_sorted | exact Hfirst | | exact Hoc].
    by rewrite elem_of_sorted_by_len_desc.
  - rewrite first_match_None in Hfirst.
    rewrite Hfirst in Hoccurs; [done|].
    unfold sorted_keywords. by rewrite elem_of_sorted_by_len_desc.
Qed.

Lemma identify_emergency_longest_keyword_wins_witness :
  ∃ winner name,
    winner ∈ keys emergency_keywords
    ∧ contains winner (lower (py "Tengo una QUEMADURA electrica")) = true
    ∧ dict_get emergency_keywords winner = Some name
    ∧ identify_emergency (py "Tengo una QUEMADURA electrica") = Return name
    ∧ ∀ other,
        other ∈ keys emergency_keywords →
        contains other (lower (py "Tengo una QUEMADURA electrica")) = true →
        (length other ≤ length winner)%nat.
Proof.
  apply (proj2 identify_emergency_longest_keyword_wins
           (py "Tengo una QUEMADURA electrica") (py "electrica")).
  - vm_compute. do 2 right. left.
  - vm_compute. reflexivity.
Defined.

(* ===================================================================== *)
(** * The resolver *)
(* ===================================================================== *)

Section ResolverFacts.

Variable graph : Query → option Row.





(** A dict of the resolver that ends the flow, or asks to clarify, has
    no ["node_id"] entry; only questions and steps have one. *)
Lemma get_next_interaction_node_id sid name input id type waiting ni :
  get_next_interaction graph sid name input id type waiting = Return ni →
  (i_node_id ni = None ↔ i_type ni ≠ TQuestion ∧ i_type ni ≠ TStep)
  ∧ (i_is_end ni = true → i_node_id ni = None).
Proof.
  unfold get_next_interaction, found, without_node_id. intros H.
  repeat case_match; simplify_eq; simpl; split; try done; split; try done;
    intros [? ?]; done.
Qed.

End ResolverFacts.



(* ===================================================================== *)
(** * Symbolic execution of the handler *)
(* ===================================================================== *)

Ltac exec_step :=
  cbn [bind gets modify ret raise lift read_state update_state fst snd
       session_states timeout_tasks conversation_memories loop_tasks now
       phrase_log with_session_states with_timeout_tasks
       with_conversation_memories with_loop_tasks with_now with_phrase_log
       is_None text session_id negb andb orb fmap option_fmap option_map] in *.

(** Runs the monadic code as far as the known dict lookups allow. *)
Ltac exec :=
  repeat (progress (exec_step;
    rewrite ?lookup_alter_eq, ?lookup_insert_eq, ?lookup_delete_eq;
    repeat match goal with H : _ !! _ = _ |- _ => rewrite H end)).

(** Closes [waiting_after_question] of a world whose session table is
    the old one altered at one session. *)
Ltac solve_inv HI :=
  let sid' := fresh "sid'" in let st' := fresh "st'" in
  let Hl := fresh "Hl" in let Hw := fresh "Hw" in
  intros sid' st' Hl Hw; exec_step;
  match goal with
  | Hst : session_states _ !! ?sid = Some _ |- _ =>
      destruct (decide (sid' = sid)) as [->|?];
      [ rewrite ?lookup_alter_eq, ?lookup_insert_eq, ?Hst in Hl; simpl in Hl;
        simplify_eq; simpl in *; try done; try (eapply HI; eassumption)
      | rewrite ?lookup_alter_ne, ?lookup_insert_ne in Hl by done;
        by eapply HI ]
  end.

Lemma preserves_bind {A B} (I : World → Prop) (c : M A) (k : A → M B) :
  preserves I c → (∀ a, preserves I (k a)) → preserves I (bind c k).
Proof.
  intros Hc Hk w HI. specialize (Hc w HI). unfold bind.
  destruct (c w) as [[a|e] w']; simpl in *; [by apply Hk | done].
Qed.

Lemma preserves_ret {A} (I : World → Prop) (a : A) : preserves I (ret a).
Proof. by intros w HI. Qed.

Lemma preserves_sessions {A} (c : M A) :
  (∀ w, session_states (c w).2 = session_states w) →
  preserves waiting_after_question c.
Proof. intros Hc w HI sid st. rewrite Hc. apply HI. Qed.

Lemma initial_world_inv (t0 : Z) : waiting_after_question (initial_world t0).
Proof. intros sid st. simpl. by rewrite lookup_empty. Qed.

Section HandlerFacts.

Variable graph : Query → option Row.
Variable gemini : GeminiCall → option pystr.

(** ** The parts of the handler and the session table *)

Lemma open_session_inv sid : preserves waiting_after_question (open_session sid).
Proof.
  intros w HI. unfold open_session. exec.
  destruct (session_states w !! sid) as [st|] eqn:Hst; exec.
  - solve_inv HI.
  - intros sid' st'. exec_step.
    destruct (decide (sid' = sid)) as [->|?].
    + rewrite lookup_alter_eq, lookup_insert_eq. simpl. by intros [= <-].
    + rewrite lookup_alter_ne, lookup_insert_ne by done. apply HI.
Qed.

Lemma cancel_previous_timeout_sessions sid w :
  session_states (cancel_previous_timeout sid w).2 = session_states w.
Proof.
  unfold cancel_previous_timeout, cancel. exec.
  by destruct (timeout_tasks w !! sid).
Qed.

Lemma generate_llm_response_sessions raw sid e t w :
  session_states (_generate_llm_response gemini raw sid e t w).2 = session_states w.
Proof.
  unfold _generate_llm_response. exec.
  destruct (conversation_memories w !! sid); exec; by destruct (gemini _), e.
Qed.

Lemma schedule_timeout_sessions sid w :
  session_states (schedule_timeout sid w).2 = session_states w.
Proof.
  unfold schedule_timeout, create_task. exec.
  destruct (session_states w !! sid) as [st|]; exec; [|done].
  by destruct (waiting_for_answer st).
Qed.

(** Reading the missing ["node_id"] entry raises before anything is
    written to the session. *)
Lemma record_interaction_KeyError sid ni w :
  i_node_id ni = None →
  record_interaction sid ni w = (Raise (KeyError (py "node_id")), w).
Proof. intros H. unfold record_interaction, node_id_of. by rewrite H. Qed.

Lemma record_interaction_inv sid ni w st :
  waiting_after_question w →
  session_states w !! sid = Some st →
  waiting_after_question (record_interaction sid ni w).2.
Proof.
  intros HI Hst. unfold record_interaction, node_id_of. exec.
  destruct (i_node_id ni); exec; [|done].
  solve_inv HI. case_bool_decide; congruence.
Qed.

Lemma dispatch_inv message :
  preserves waiting_after_question (dispatch graph message).
Proof.
  intros w HI. unfold dispatch. exec.
  destruct (session_states w !! session_id message) as [st|] eqn:Hst;
    exec; [|done].
  destruct (str_in_list _ _); exec.
  { solve_inv HI. }
  destruct (_ && _ && negb _); exec.
  { destruct (get_next_interaction _ _ _ _ _ _ _) as [ni|e] eqn:Hni;
      exec; [|done].
    by eapply record_interaction_inv. }
  destruct (_ || _); exec.
  { destruct (identify_emergency _) as [name|e]; exec; [|done].
    destruct (str_eqb _ _); exec.
    { solve_inv HI. }
    destruct (get_next_interaction _ _ _ _ _ _ _) as [ni|e] eqn:Hni; exec.
    - unfold record_interaction, node_id_of. exec.
      destruct (i_node_id ni); exec.
      + solve_inv HI. case_bool_decide; congruence.
      + solve_inv HI.
    - solve_inv HI. }
  destruct (get_next_interaction _ _ _ _ _ _ _) as [ni|e] eqn:Hni;
    exec; [|done].
  apply get_next_interaction_node_id in Hni as [_ Hend].
  unfold record_interaction, node_id_of. exec.
  destruct (i_node_id ni); exec; [|done].
  destruct (i_is_end ni); exec.
  - by specialize (Hend eq_refl).
  - solve_inv HI. case_bool_decide; congruence.
Qed.

Lemma chat_inv message :
  preserves waiting_after_question (chat graph gemini message).
Proof.
  unfold chat.
  apply preserves_bind; [apply open_session_inv | intros _].
  apply preserves_bind;
    [apply preserves_sessions, cancel_previous_timeout_sessions | intros _].
  apply preserves_bind; [apply dispatch_inv | intros [[raw type] is_end]].
  apply preserves_bind;
    [apply preserves_sessions, generate_llm_response_sessions | intros final].
  apply preserves_bind;
    [apply preserves_sessions, schedule_timeout_sessions | intros _].
  apply preserves_ret.
Qed.

Lemma wake_inv handle : preserves waiting_after_question (wake handle).
Proof.
  intros w HI. unfold wake, reset_if_no_response. exec.
  destruct (loop_tasks w !! handle) as [task|]; exec; [|done].
  destruct (status task); exec; try done.
  case_bool_decide; exec; [|done].
  destruct (session_states w !! task_session task) as [st|] eqn:Hst;
    exec; [|done].
  case_bool_decide; exec; [|done].
  solve_inv HI.
Qed.

Lemma run_inv e w :
  waiting_after_question w → waiting_after_question (run graph gemini e w).
Proof.
  destruct e as [message|dt|handle]; simpl.
  - apply chat_inv.
  - done.
  - apply wake_inv.
Qed.

Lemma run_all_inv es w :
  waiting_after_question w → waiting_after_question (run_all graph gemini es w).
Proof.
  revert w. induction es as [|e es IH]; simpl; [done|].
  intros w HI. by apply IH, run_inv.
Qed.

(** ** The reset command *)

Lemma chat_reset message w :
  str_in_list (strip (lower (text message))) RESET_COMMANDS = true →
  ∃ response w',
    chat graph gemini message w = (Return response, w')
    ∧ session_states w' !! session_id message = Some (fresh_state (now w))
    ∧ phrase_log w' = phrase_log w ++
        [{| pc_raw_content := Some WELCOME;
            pc_session_id := session_id message;
            pc_is_emergency_end := false;
            pc_original_type := TInitialMessage |}]
    ∧ timeout_tasks w' !! session_id message = None.
Proof.
  intros Hreset.
  unfold chat, open_session, cancel_previous_timeout, cancel, dispatch,
    _generate_llm_response, schedule_timeout, create_task.
  exec.
  destruct (session_states w !! session_id message) as [st|] eqn:Hst; exec;
  (destruct (timeout_tasks w !! session_id message) as [h|] eqn:Hh; exec;
   rewrite Hreset; exec;
   (destruct (conversation_memories w !! session_id message) as [mem|] eqn:Hmem;
    exec;
    (destruct (gemini _) as [reply|]; exec;
     do 2 eexists; (split; [reflexivity|]); exec; done))).
Qed.

End HandlerFacts.

(* ===================================================================== *)
(** * The end-of-flow flag *)
(* ===================================================================== *)

Section EscalationFacts.

Variable graph : Query → option Row.
Variable gemini : GeminiCall → option pystr.







End EscalationFacts.

(* ===================================================================== *)
(** * Requests, failures and timeout tasks *)
(* ===================================================================== *)

Section RequestFacts.
Variable graph : Query → option Row.
Variable gemini : GeminiCall → option pystr.

Lemma open_session_frame sid w :
  ∃ w', open_session sid w = (Return tt, w')
    ∧ is_Some (session_states w' !! sid)
    ∧ timeout_tasks w' = timeout_tasks w
    ∧ loop_tasks w' = loop_tasks w
    ∧ now w' = now w.
Proof.
  unfold open_session. exec.
  destruct (session_states w !! sid) eqn:Hst; exec;
    (eexists; split; [reflexivity|]; exec; by repeat split).
Qed.

Lemma cancel_previous_timeout_frame sid w :
  ∃ w', cancel_previous_timeout sid w = (Return tt, w')
    ∧ session_states w' = session_states w
    ∧ timeout_tasks w' !! sid = None
    ∧ now w' = now w
    ∧ loop_tasks w' =
        match timeout_tasks w !! sid with
        | Some handle => alter cancelled handle (loop_tasks w)
        | None => loop_tasks w
        end.
Proof.
  unfold cancel_previous_timeout, cancel. exec.
  destruct (timeout_tasks w !! sid) as [h|] eqn:Hh; exec;
    (eexists; split; [reflexivity|]); exec; by repeat split.
Qed.

Lemma dispatch_frame message w :
  timeout_tasks (dispatch graph message w).2 = timeout_tasks w
  ∧ loop_tasks (dispatch graph message w).2 = loop_tasks w
  ∧ now (dispatch graph message w).2 = now w
  ∧ (is_Some (session_states w !! session_id message) →
     is_Some (session_states (dispatch graph message w).2 !! session_id message)).
Proof.
  unfold dispatch, record_interaction, node_id_of. exec.
  destruct (session_states w !! session_id message) as [st|] eqn:Hst; exec;
    [|by repeat split; try intros [? [=]]].
  repeat (exec; match goal with
          | |- context [if ?b then _ else _] => destruct b eqn:?
          | |- context [lift ?o] => destruct o eqn:?
          | |- context [match i_node_id ?ni with _ => _ end] =>
              destruct (i_node_id ni) eqn:?
          | |- context [match ?o with Return _ => _ | Raise _ => _ end] =>
              destruct o eqn:?
          end); exec; repeat split; try done; eauto.
Qed.

Lemma generate_llm_response_frame raw sid e t w :
  ∃ response w',
    _generate_llm_response gemini raw sid e t w = (Return response, w')
    ∧ session_states w' = session_states w
    ∧ timeout_tasks w' = timeout_tasks w
    ∧ loop_tasks w' = loop_tasks w
    ∧ now w' = now w.
Proof.
  unfold _generate_llm_response. exec.
  destruct (conversation_memories w !! sid); exec;
    destruct (gemini _), e; exec; by do 2 eexists.
Qed.

Lemma schedule_timeout_spec sid state w :
  session_states w !! sid = Some state →
  ∃ w', schedule_timeout sid w = (Return tt, w')
    ∧ session_states w' = session_states w
    ∧ if waiting_for_answer state then
        timeout_tasks w' !! sid = Some (length (loop_tasks w))
        ∧ loop_tasks w' = loop_tasks w ++
            [{| task_session := sid; wake_at := now w + seconds 60;
                status := Sleeping |}]
      else
        timeout_tasks w' = timeout_tasks w ∧ loop_tasks w' = loop_tasks w.
Proof.
  intros Hst. unfold schedule_timeout, create_task. exec.
  destruct (waiting_for_answer state); exec;
    (eexists; split; [reflexivity|]); exec; by repeat split.
Qed.

Lemma chat_timeout message w :
  let sid := session_id message in
  let r := chat graph gemini message w in
  (∀ handle old,
     timeout_tasks w !! sid = Some handle →
     loop_tasks w !! handle = Some old →
     loop_tasks r.2 !! handle = Some (cancelled old))
  ∧ (∀ response,
       r.1 = Return response →
       ∃ state,
         session_states r.2 !! sid = Some state
         ∧ if waiting_for_answer state then
             ∃ handle,
               timeout_tasks r.2 !! sid = Some handle
               ∧ loop_tasks r.2 !! handle
                 = Some {| task_session := sid; wake_at := now w + seconds 60;
                           status := Sleeping |}
           else timeout_tasks r.2 !! sid = None)
  ∧ (∀ e, r.1 = Raise e → timeout_tasks r.2 !! sid = None).
Proof.
  intros sid r. subst sid r. unfold chat. cbn [bind].
  destruct (open_session_frame (session_id message) w)
    as (w1 & -> & Hs1 & Ht1 & Hl1 & Hn1).
  destruct (cancel_previous_timeout_frame (session_id message) w1)
    as (w2 & -> & Hs2 & Ht2 & Hn2 & Hl2).
  destruct (dispatch_frame message w2) as (Ht3 & Hl3 & Hn3 & Hs3).
  rewrite Hs2 in Hs3. specialize (Hs3 Hs1).
  assert (Hold : ∀ handle old,
    timeout_tasks w !! session_id message = Some handle →
    loop_tasks w !! handle = Some old →
    loop_tasks w2 !! handle = Some (cancelled old)).
  { intros handle old Hh Hold. rewrite Hl2, Ht1, Hh, Hl1.
    by rewrite list_lookup_alter_eq, Hold. }
  destruct (dispatch graph message w2) as [[[[raw type] is_end]|e] w3];
    simpl in *.
  - destruct (generate_llm_response_frame raw (session_id message) is_end
                type w3) as (response & w4 & -> & Hs4 & Ht4 & Hl4 & Hn4).
    destruct Hs3 as [state Hstate]. rewrite <- Hs4 in Hstate.
    destruct (schedule_timeout_spec _ _ _ Hstate) as (w5 & -> & Hs5 & Hw).
    simpl. rewrite Hs5, Hstate. split; [|split; [|done]].
    + intros handle old Hh Ho. specialize (Hold _ _ Hh Ho).
      destruct (waiting_for_answer state).
      * destruct Hw as [_ ->]. rewrite Hl4, Hl3.
        by apply lookup_app_l_Some.
      * destruct Hw as [_ ->]. by rewrite Hl4, Hl3.
    + intros _ _. exists state. split; [done|].
      destruct (waiting_for_answer state).
      * destruct Hw as [-> ->]. eexists. split; [done|].
        rewrite list_lookup_middle by done.
        by rewrite Hn4, Hn3, Hn2, Hn1.
      * destruct Hw as [-> _]. by rewrite Ht4, Ht3.
  - split; [|split; [done|]].
    + intros handle old Hh Ho. rewrite Hl3. by apply Hold.
    + intros _ _. by rewrite Ht3.
Qed.

Lemma get_next_interaction_raises sid name input id type waiting e :
  get_next_interaction graph sid name input id type waiting = Raise e →
  input = None ∧ waiting = true.
Proof.
  unfold get_next_interaction. intros H.
  repeat case_match; simplify_eq; try done.
  split; [done|]. by destruct waiting.
Qed.

Lemma dispatch_raises message w e :
  is_Some (session_states w !! session_id message) →
  (dispatch graph message w).1 = Raise e →
  e = KeyError (py "node_id").
Proof.
  intros [st Hst]. unfold dispatch, record_interaction, node_id_of. exec.
  destruct (identify_emergency_returns (text message)) as [name Hname].
  rewrite Hname.
  repeat (exec; match goal with
          | |- context [if ?b then _ else _] => destruct b eqn:?
          | |- context [lift ?o] => destruct o eqn:?
          | |- context [match i_node_id ?ni with _ => _ end] =>
              destruct (i_node_id ni) eqn:?
          | |- context [match ?o with Return _ => _ | Raise _ => _ end] =>
              destruct o eqn:?
          end); exec; try done;
    try (intros [= <-]; done);
    match goal with
    | H : get_next_interaction _ _ _ _ _ _ _ = Raise _ |- _ =>
        by apply get_next_interaction_raises in H as [? ?]
    end.
Qed.

(** The handler has one way to fail: the missing ["node_id"]. *)
Lemma chat_raises message w e :
  (chat graph gemini message w).1 = Raise e → e = KeyError (py "node_id").
Proof.
  unfold chat. cbn [bind].
  destruct (open_session_frame (session_id message) w)
    as (w1 & -> & Hs1 & _).
  destruct (cancel_previous_timeout_frame (session_id message) w1)
    as (w2 & -> & Hs2 & _).
  rewrite <- Hs2 in Hs1.
  pose proof (dispatch_raises message w2) as Hraise.
  destruct (dispatch_frame message w2) as (_ & _ & _ & Hs3).
  specialize (Hs3 Hs1).
  destruct (dispatch graph message w2) as [[[[raw type] is_end]|e'] w3];
    simpl in *; [|intros [= <-]; by apply Hraise].
  destruct (generate_llm_response_frame raw (session_id message) is_end
              type w3) as (response & w4 & -> & Hs4 & _).
  destruct Hs3 as [state Hstate]. rewrite <- Hs4 in Hstate.
  by destruct (schedule_timeout_spec _ _ _ Hstate) as (w5 & -> & _).
Qed.

End RequestFacts.

(* ===================================================================== *)
(** * The session state machine *)
(* ===================================================================== *)

(** C4. A session waits for an answer only when the node it was last
    given is a question: the property holds when the process starts, every
    transition (a request in any of its branches, the passing of time, the
    idle-timeout task) keeps it, and so it holds in every state the
    process reaches. *)
Theorem waiting_implies_question
    (graph : Query → option Row) (gemini : GeminiCall → option pystr) :
  (∀ t0, waiting_after_question (initial_world t0))
  ∧ (∀ e w,
       waiting_after_question w →
       waiting_after_question (run graph gemini e w))
  ∧ (∀ t0 es sid state,
       session_states (run_all graph gemini es (initial_world t0)) !! sid
         = Some state →
       waiting_for_answer state = true →
       last_node_type state = Some TQuestion).
Proof.
  split; [apply initial_world_inv|].
  split; [intros e w; apply run_inv|].
  intros t0 es.
  apply (run_all_inv graph gemini es), initial_world_inv.
Qed.

Lemma waiting_implies_question_witness :
  session_states asked !! s1
    = Some {| emergency := Some (py "Hemorragia Severa");
              last_node_id := Some 10;
              last_node_type := Some TQuestion;
              waiting_for_answer := true;
              last_interaction_time := 0 |}
  ∧ last_node_type
      {| emergency := Some (py "Hemorragia Severa");
         last_node_id := Some 10;
         last_node_type := Some TQuestion;
         waiting_for_answer := true;
         last_interaction_time := 0 |} = Some TQuestion.
Proof.
  split; [vm_compute; reflexivity|].
  apply (proj2 (proj2 (waiting_implies_question sample_graph echo_model))
           0 [Request (says "Tengo una hemorragia")] s1).
  - vm_compute; reflexivity.
  - reflexivity.
Defined.

(** C6. A reset command, whatever the state of the session, is answered
    normally, leaves the session with no emergency, no last node, no node
    type and no pending answer, hands the welcome prompt to the phrasing
    step and arms no timeout; a second reset command, at any later time,
    leaves the session in the same state. *)
Theorem reset_command_idempotent
    (graph : Query → option Row) (gemini : GeminiCall → option pystr)
    (message : UserMessage) (w : World) :
  str_in_list (strip (lower (text message))) RESET_COMMANDS = true →
  let sid := session_id message in
  let r := chat graph gemini message w in
  (∃ response, r.1 = Return response)
  ∧ conversation <$> (session_states r.2 !! sid) = Some (None, None, None, false)
  ∧ phrase_log r.2 = phrase_log w ++
      [{| pc_raw_content := Some WELCOME; pc_session_id := sid;
          pc_is_emergency_end := false;
          pc_original_type := TInitialMessage |}]
  ∧ timeout_tasks r.2 !! sid = None
  ∧ ∀ again dt,
      session_id again = sid →
      str_in_list (strip (lower (text again))) RESET_COMMANDS = true →
      conversation <$>
        (session_states
           (chat graph gemini again (run graph gemini (Elapse dt) r.2)).2 !! sid)
      = conversation <$> (session_states r.2 !! sid).
Proof.
  intros Hreset sid r. subst sid r.
  destruct (chat_reset graph gemini message w Hreset)
    as (response & w' & -> & Hstate & Hlog & Htimer).
  simpl. rewrite Hstate. repeat split; try done; [by eexists|].
  intros again dt Hsid Hagain.
  destruct (chat_reset graph gemini again (with_now (λ t, t + Z.of_N dt) w')
              Hagain) as (response2 & w2 & -> & Hstate2 & _).
  simpl. rewrite <- Hsid, Hstate2. reflexivity.
Qed.

Lemma reset_command_idempotent_witness :
  let r := chat sample_graph echo_model (says " Reiniciar ") asked in
  (∃ response, r.1 = Return response)
  ∧ conversation <$> (session_states r.2 !! s1) = Some (None, None, None, false)
  ∧ phrase_log r.2 = phrase_log asked ++
      [{| pc_raw_content := Some WELCOME; pc_session_id := s1;
          pc_is_emergency_end := false;
          pc_original_type := TInitialMessage |}]
  ∧ timeout_tasks r.2 !! s1 = None
  ∧ ∀ again dt,
      session_id again = s1 →
      str_in_list (strip (lower (text again))) RESET_COMMANDS = true →
      conversation <$>
        (session_states
           (chat sample_graph echo_model again
              (run sample_graph echo_model (Elapse dt) r.2)).2 !! s1)
      = conversation <$> (session_states r.2 !! s1).
Proof.
  apply (reset_command_idempotent sample_graph echo_model
           (says " Reiniciar ") asked).
  vm_compute. reflexivity.
Defined.

(* ===================================================================== *)
(** * The idle timeout *)
(* ===================================================================== *)

Lemma reset_if_no_response_recent sid state w :
  session_states w !! sid = Some state →
  now w - last_interaction_time state < seconds 55 →
  reset_if_no_response sid w = (Return tt, w).
Proof.
  intros Hst Hrecent. unfold reset_if_no_response. exec.
  case_bool_decide as Hstale; [|done].
  unfold GRACE_WINDOW in Hstale. lia.
Qed.

Lemma reset_if_no_response_stale sid state w :
  session_states w !! sid = Some state →
  seconds 55 ≤ now w - last_interaction_time state →
  reset_if_no_response sid w =
    (Return tt,
     with_conversation_memories (delete sid)
       (with_session_states (insert sid (fresh_state (now w))) w)).
Proof.
  intros Hst Hstale. unfold reset_if_no_response. exec.
  case_bool_decide as Hcheck; [done|].
  unfold GRACE_WINDOW in Hcheck. lia.
Qed.

Lemma reset_if_no_response_returns sid w :
  (reset_if_no_response sid w).1 = Return tt.
Proof.
  unfold reset_if_no_response. exec.
  destruct (session_states w !! sid); exec; [|done].
  by case_bool_decide.
Qed.

(** C7. The timeout task created for a session sleeps for sixty seconds:
    the event loop does nothing with it before that. When it wakes, it
    leaves everything as it is if the session's last interaction is less
    than 55 seconds old (so a message received 56 seconds after the task
    was created keeps the expiry at 60 seconds from resetting anything);
    otherwise the session is reset to no emergency, no last node, no node
    type and no pending answer, and its conversation memory is deleted. *)
Theorem idle_timeout_delay_and_grace :
  (∀ sid w,
     (create_task sid w).1 = Return (length (loop_tasks w))
     ∧ loop_tasks (create_task sid w).2 !! length (loop_tasks w)
       = Some {| task_session := sid; wake_at := now w + seconds 60;
                 status := Sleeping |})
  ∧ (∀ handle task w,
       loop_tasks w !! handle = Some task →
       now w < wake_at task →
       wake handle w = (Return tt, w))
  ∧ (∀ handle task w,
       loop_tasks w !! handle = Some task →
       status task = Sleeping →
       wake_at task ≤ now w →
       wake handle w =
         (Return tt,
          with_loop_tasks (alter (set_status Finished) handle)
            (reset_if_no_response (task_session task) w).2))
  ∧ (∀ sid state w,
       session_states w !! sid = Some state →
       now w - last_interaction_time state < seconds 55 →
       reset_if_no_response sid w = (Return tt, w))
  ∧ (∀ sid state w t0,
       session_states w !! sid = Some state →
       last_interaction_time state = t0 + seconds 56 →
       now w = t0 + seconds 60 →
       reset_if_no_response sid w = (Return tt, w))
  ∧ (∀ sid state w,
       session_states w !! sid = Some state →
       seconds 55 ≤ now w - last_interaction_time state →
       let w' := (reset_if_no_response sid w).2 in
       session_states w' !! sid = Some (fresh_state (now w))
       ∧ conversation (fresh_state (now w)) = (None, None, None, false)
       ∧ conversation_memories w' !! sid = None).
Proof.
  repeat split.
  - simpl. by rewrite list_lookup_middle.
  - intros handle task w Htask Hearly. unfold wake. exec.
    destruct (status task); [|done..].
    case_bool_decide; [lia | done].
  - intros handle task w Htask Hstatus Hdue. unfold wake. exec.
    rewrite Hstatus. case_bool_decide; [|lia]. exec.
    pose proof (reset_if_no_response_returns (task_session task) w) as Hret.
    destruct (reset_if_no_response (task_session task) w) as [o w'].
    simpl in Hret. by subst o.
  - apply reset_if_no_response_recent.
  - intros sid state w t0 Hst Hlast Hnow.
    apply (reset_if_no_response_recent sid state w Hst).
    rewrite Hlast, Hnow. unfold seconds. lia.
  - rewrite (reset_if_no_response_stale sid state w) by done.
    simpl. by rewrite lookup_insert_eq.
  - rewrite (reset_if_no_response_stale sid state w) by done.
    simpl. by rewrite lookup_delete_eq.
Qed.

Lemma idle_timeout_delay_and_grace_witness :
  wake 0 asked = (Return tt, asked)
  ∧ reset_if_no_response s1 after_late_answer = (Return tt, after_late_answer)
  ∧ (let w' := (reset_if_no_response s1 unanswered).2 in
     session_states w' !! s1 = Some (fresh_state (now unanswered))
     ∧ conversation (fresh_state (now unanswered)) = (None, None, None, false)
     ∧ conversation_memories w' !! s1 = None).
Proof.
  destruct idle_timeout_delay_and_grace
    as (_ & Hearly & _ & _ & Hrace & Hstale).
  split; [|split].
  - apply (Hearly 0%nat {| task_session := s1; wake_at := seconds 60;
                           status := Sleeping |} asked).
    + vm_compute; reflexivity.
    + vm_compute; reflexivity.
  - apply (Hrace s1 {| emergency := Some (py "Hemorragia Severa");
                       last_node_id := Some 20;
                       last_node_type := Some TStep;
                       waiting_for_answer := false;
                       last_interaction_time := seconds 56 |}
             after_late_answer 0).
    + vm_compute; reflexivity.
    + vm_compute; reflexivity.
    + vm_compute; reflexivity.
  - apply (Hstale s1 {| emergency := Some (py "Hemorragia Severa");
                        last_node_id := Some 10;
                        last_node_type := Some TQuestion;
                        waiting_for_answer := true;
                        last_interaction_time := 0 |} unanswered).
    + vm_compute; reflexivity.
    + vm_compute. discriminate.
Defined.

(** The timer race, end to end: the task armed at time 0
    was cancelled by the message at 56 seconds, and waking it at 60
    seconds changes nothing. *)
Example late_answer_survives_expiry :
  now after_late_answer = seconds 60
  ∧ wake 0 after_late_answer = (Return tt, after_late_answer)
  ∧ conversation <$> (session_states after_late_answer !! s1)
    = Some (Some (py "Hemorragia Severa"), Some 20, Some TStep, false).
Proof. by vm_compute. Qed.

(** Without an answer, the task resets the session at 60 seconds. *)
Example unanswered_question_expires :
  let w' := (wake 0 unanswered).2 in
  conversation <$> (session_states unanswered !! s1)
    = Some (Some (py "Hemorragia Severa"), Some 10, Some TQuestion, true)
  ∧ conversation_memories unanswered !! s1 = Some ConversationBufferMemory
  ∧ conversation <$> (session_states w' !! s1) = Some (None, None, None, false)
  ∧ conversation_memories w' !! s1 = None
  ∧ status <$> (loop_tasks w' !! 0%nat) = Some Finished.
Proof. by vm_compute. Qed.

(* ===================================================================== *)
(** * Dicts without ["node_id"] *)
(* ===================================================================== *)

(** C1. The handler does not always answer: in a session that was asked
    a question, "tal vez" (resolver kind clarify) and "no" (no step for
    the answer, kind end) make it raise [KeyError: 'node_id'], and so do
    any message after the last step of a branch and the description of an
    emergency that has no evaluation; the framework answers 500. The dict
    of kind error, returned for a combination of arguments that fits no
    query, has no ["node_id"] either. *)
Theorem chat_raises_on_dicts_without_node_id :
  let clarify := (chat sample_graph echo_model (says "tal vez") asked).1 in
  let no_step := (chat sample_graph echo_model (says "no") asked).1 in
  let end_of_branch :=
    (chat sample_graph echo_model (says "ok") at_last_step).1 in
  let no_evaluation :=
    (chat sample_graph echo_model (says "Sangrado nasal") (initial_world 0)).1 in
  (clarify = Raise (KeyError (py "node_id")) ∧ status_code clarify = 500)
  ∧ (no_step = Raise (KeyError (py "node_id")) ∧ status_code no_step = 500)
  ∧ (end_of_branch = Raise (KeyError (py "node_id"))
     ∧ status_code end_of_branch = 500)
  ∧ (no_evaluation = Raise (KeyError (py "node_id"))
     ∧ status_code no_evaluation = 500)
  ∧ (get_next_interaction sample_graph s1 (Some (py "Hemorragia Severa"))
       (Some (py "ok")) (Some 10) None false
     = Return (without_node_id TError MSG_UNEXPECTED true)
     ∧ (record_interaction s1 (without_node_id TError MSG_UNEXPECTED true)
          asked).1
       = Raise (KeyError (py "node_id"))).
Proof. by vm_compute. Qed.





(* ===================================================================== *)
(** * Further properties of the resolver, the classifier and the handler *)
(* ===================================================================== *)

Section ResolverShapes.
Variable graph : Query → option Row.

End ResolverShapes.

Section ClassifierPriority.

Lemma before_cons {A} (x y k : A) (l : list A) :
  before x y l → before x y (k :: l).
Proof. intros (l1 & l2 & -> & Hy). by exists (k :: l1), l2. Qed.

Lemma before_head {A} (x y : A) (l : list A) : y ∈ l → before x y (x :: l).
Proof. intros Hy. by exists [], l. Qed.

Lemma before_lookup {A} (x y : A) (l : list A) :
  before x y l →
  ∃ i j, (i < j)%nat ∧ l !! i = Some x ∧ l !! j = Some y.
Proof.
  intros (l1 & l2 & -> & Hy).
  apply list_elem_of_lookup in Hy as [j Hj].
  exists (length l1), (length l1 + S j)%nat. split; [lia|]. split.
  - by rewrite list_lookup_middle.
  - rewrite lookup_app_r by lia.
    replace (length l1 + S j - length l1)%nat with (S j) by lia. done.
Qed.

Lemma outranks_cons (ks : list pystr) (k x y : pystr) :
  outranks ks x y → outranks (k :: ks) x y.
Proof. intros [?|[? ?]]; [by left | right; split; [done | by apply before_cons]]. Qed.

Lemma outranks_length (ks : list pystr) (x y : pystr) :
  outranks ks x y → (length y ≤ length x)%nat.
Proof. intros [?|[? ?]]; lia. Qed.

Lemma StronglySorted_mono {A} (R R' : A → A → Prop) (l : list A) :
  (∀ x y, R x y → R' x y) → StronglySorted R l → StronglySorted R' l.
Proof.
  intros Himpl. induction 1 as [|h t _ IH Hall]; constructor; [done|].
  eapply Forall_impl; [exact Hall | by intros; apply Himpl].
Qed.

Lemma insert_by_len_outranks (k : pystr) (ks sorted : list pystr) :
  StronglySorted (outranks ks) sorted →
  (∀ y, y ∈ sorted → y ∈ ks) →
  StronglySorted (outranks (k :: ks)) (insert_by_len k sorted).
Proof.
  induction 1 as [|h t Hsorted IH Hall]; intros Hsub; simpl.
  - repeat constructor.
  - rewrite Forall_forall in Hall.
    destruct (length h <=? length k)%nat eqn:Hcmp.
    + apply Nat.leb_le in Hcmp. constructor.
      * apply (StronglySorted_mono (outranks ks)); [apply outranks_cons|].
        constructor; [done | by apply Forall_forall].
      * apply Forall_forall. intros y Hy.
        assert (length y ≤ length h)%nat as Hlen.
        { apply elem_of_cons in Hy as [->|Hy]; [done|].
          by eapply outranks_length, Hall. }
        destruct (decide (length y = length k)) as [Heq|Hne].
        -- right. split; [done|]. by apply before_head, Hsub.
        -- left. lia.
    + apply Nat.leb_gt in Hcmp. constructor.
      * apply IH. intros y Hy. apply Hsub. by right.
      * apply Forall_forall. intros y [->|Hy]%elem_of_insert_by_len.
        -- by left.
        -- by apply outranks_cons, Hall.
Qed.

Lemma sorted_by_len_desc_outranks (ks : list pystr) :
  StronglySorted (outranks ks) (sorted_by_len_desc ks).
Proof.
  induction ks as [|k ks IH]; simpl; [constructor|].
  apply insert_by_len_outranks; [done|].
  intros y. by rewrite elem_of_sorted_by_len_desc.
Qed.

Lemma first_match_outranks (R : pystr → pystr → Prop) (kws : list pystr)
    (t k : pystr) :
  StronglySorted R kws →
  first_match kws t = Some k →
  ∀ y, y ∈ kws → contains y t = true → y = k ∨ R k y.
Proof.
  induction 1 as [|h kws Hsorted IH Hall]; simpl; [done|].
  rewrite Forall_forall in Hall.
  destruct (contains h t) eqn:Hh.
  - intros [= <-] y [->|Hin]%elem_of_cons _; [by left | right; by apply Hall].
  - intros Hk y [->|Hin]%elem_of_cons Hc; [congruence | by apply IH].
Qed.

Lemma keys_NoDup : NoDup (keys emergency_keywords).
Proof. apply (bool_decide_unpack _). by vm_compute. Qed.

Lemma values_recognized : Forall (λ name, name ≠ NOT_IDENTIFIED) (values emergency_keywords).
Proof. apply (bool_decide_unpack _). by vm_compute. Qed.

Lemma dict_get_values (d : list (pystr * pystr)) (k name : pystr) :
  dict_get d k = Some name → k ∈ keys d ∧ name ∈ values d.
Proof.
  induction d as [|[k' v] d IH]; simpl; [done|].
  unfold str_eqb. case_bool_decide as Heq.
  - intros [= <-]. subst. split; by left.
  - intros [? ?]%IH. split; by right.
Qed.

(** X2. The classifier never raises; it returns either the fixed
    not-identified message or one of the names of its table, and the
    message exactly when no keyword of the table occurs in the lowercased
    text. *)
Theorem identify_emergency_range (text : pystr) :
  ∃ name,
    identify_emergency text = Return name
    ∧ (name = NOT_IDENTIFIED ∨ name ∈ values emergency_keywords)
    ∧ (name = NOT_IDENTIFIED ↔
       ∀ keyword, keyword ∈ keys emergency_keywords →
                  contains keyword (lower text) = false).
Proof.
  unfold identify_emergency.
  destruct (first_match sorted_keywords (lower text)) as [k|] eqn:Hk.
  - pose proof (first_match_Some _ _ _ Hk) as [Hin Hc].
    unfold sorted_keywords in Hin. rewrite elem_of_sorted_by_len_desc in Hin.
    destruct (dict_get_keys _ _ Hin) as [name Hname]. rewrite Hname.
    exists name. split; [done|].
    apply dict_get_values in Hname as [_ Hval].
    split; [by right|]. split.
    + intros ->. pose proof values_recognized as Hrec.
      rewrite Forall_forall in Hrec. by destruct (Hrec _ Hval).
    + intros Hnone. rewrite Hnone in Hc; done.
  - exists NOT_IDENTIFIED. split; [done|]. split; [by left|].
    split; [|done]. intros _ keyword Hin.
    rewrite first_match_None in Hk. apply Hk.
    unfold sorted_keywords. by rewrite elem_of_sorted_by_len_desc.
Qed.

(** X3. Among the keywords that occur in the text, the classifier picks
    the longest, and among those of that length the one that comes first
    in the table. So a text that contains "quemadura" is never classified
    as an electrical burn, even when it contains "electrica" too. *)
Theorem identify_emergency_priority :
  (∀ text keyword,
     keyword ∈ keys emergency_keywords →
     contains keyword (lower text) = true →
     ∃ winner name,
       contains winner (lower text) = true
       ∧ dict_get emergency_keywords winner = Some name
       ∧ identify_emergency text = Return name
       ∧ ∀ other,
           other ∈ keys emergency_keywords →
           contains other (lower text) = true →
           other = winner ∨ outranks (keys emergency_keywords) winner other)
  ∧ (∀ text,
       contains (py "quemadura") (lower text) = true →
       identify_emergency text ≠ Return (py "Quemaduras Eléctricas")).
Proof.
  assert (Hgen : ∀ text keyword,
     keyword ∈ keys emergency_keywords →
     contains keyword (lower text) = true →
     ∃ winner name,
       contains winner (lower text) = true
       ∧ dict_get emergency_keywords winner = Some name
       ∧ identify_emergency text = Return name
       ∧ ∀ other,
           other ∈ keys emergency_keywords →
           contains other (lower text) = true →
           other = winner ∨ outranks (keys emergency_keywords) winner other).
  { intros text keyword Hkey Hoccurs. unfold identify_emergency.
    destruct (first_match sorted_keywords (lower text)) as [winner|] eqn:Hfirst.
    - pose proof (first_match_Some _ _ _ Hfirst) as [Hin Hc].
      unfold sorted_keywords in Hin. rewrite elem_of_sorted_by_len_desc in Hin.
      destruct (dict_get_keys _ _ Hin) as [name Hname].
      exists winner, name. rewrite Hname. repeat split; try done.
      intros other Hother Hoc.
      eapply first_match_outranks;
        [apply sorted_by_len_desc_outranks | exact Hfirst | | exact Hoc].
      by rewrite elem_of_sorted_by_len_desc.
    - rewrite first_match_None in Hfirst.
      rewrite Hfirst in Hoccurs; [done|].
      unfold sorted_keywords. by rewrite elem_of_sorted_by_len_desc. }
  split; [exact Hgen|].
  intros text Hq Hid.
  destruct (Hgen text (py "quemadura")) as (winner & name & Hc & Hname & Hid' & Hbest);
    [vm_compute; right; left | done |].
  rewrite Hid in Hid'. injection Hid' as <-.
  assert (winner = py "electrica") as ->.
  { apply dict_get_values in Hname as Hin. destruct Hin as [Hin _].
    revert Hname. 
    repeat (apply elem_of_cons in Hin as [->|Hin];
            [vm_compute; try discriminate; done|]).
    by apply elem_of_nil in Hin. }
  destruct (Hbest (py "quemadura")) as [Heq|[Hlen|[_ Hbefore]]];
    [vm_compute; right; left | done | discriminate Heq | vm_compute in Hlen; lia |].
  apply before_lookup in Hbefore as (i & j & Hij & Hi & Hj).
  pose proof keys_NoDup as Hnd.
  assert (i = 2%nat) by (eapply NoDup_lookup; [exact Hnd | exact Hi | reflexivity]).
  assert (j = 1%nat) by (eapply NoDup_lookup; [exact Hnd | exact Hj | reflexivity]).
  lia.
Qed.

End ClassifierPriority.

Ltac fields :=
  cbn [emergency last_node_id last_node_type waiting_for_answer
       last_interaction_time set_emergency set_last_node_id
       set_last_node_type set_waiting_for_answer set_last_interaction_time
       fresh_state conversation] in *.

Section Stages.
Variable graph : Query → option Row.
Variable gemini : GeminiCall → option pystr.

Lemma generate_llm_response_effect raw sid e t w :
  ∃ response w',
    _generate_llm_response gemini raw sid e t w = (Return response, w')
    ∧ session_states w' = session_states w
    ∧ timeout_tasks w' = timeout_tasks w
    ∧ loop_tasks w' = loop_tasks w
    ∧ now w' = now w
    ∧ phrase_log w' = phrase_log w ++ [phrase_call raw sid e t]
    ∧ is_Some (conversation_memories w' !! sid)
    ∧ (∀ sid', sid' ≠ sid →
         conversation_memories w' !! sid' = conversation_memories w !! sid').
Proof.
  unfold _generate_llm_response. exec.
  destruct (conversation_memories w !! sid) eqn:Hmem; exec;
    destruct (gemini _), e; exec; do 2 eexists;
    (split; [reflexivity|]); exec; repeat split; try done;
    try (by rewrite Hmem); try (by rewrite lookup_insert_eq);
    intros sid' Hne; by rewrite lookup_insert_ne.
Qed.

Lemma schedule_timeout_effect sid state w :
  session_states w !! sid = Some state →
  ∃ w', schedule_timeout sid w = (Return tt, w')
    ∧ session_states w' = session_states w
    ∧ conversation_memories w' = conversation_memories w
    ∧ now w' = now w
    ∧ phrase_log w' = phrase_log w
    ∧ if waiting_for_answer state then
        timeout_tasks w' = <[sid := length (loop_tasks w)]> (timeout_tasks w)
        ∧ loop_tasks w' = loop_tasks w ++ [new_task sid (now w)]
      else
        timeout_tasks w' = timeout_tasks w ∧ loop_tasks w' = loop_tasks w.
Proof.
  intros Hst. unfold schedule_timeout, create_task. exec.
  destruct (waiting_for_answer state); exec;
    (eexists; split; [reflexivity|]); exec; by repeat split.
Qed.

Lemma prelude_effect sid w :
  let w1 := (open_session sid w).2 in
  let w2 := (cancel_previous_timeout sid w1).2 in
  open_session sid w = (Return tt, w1)
  ∧ cancel_previous_timeout sid w1 = (Return tt, w2)
  ∧ session_states w2 !! sid
    = Some (set_last_interaction_time (now w)
              (default (fresh_state (now w)) (session_states w !! sid)))
  ∧ (∀ sid', sid' ≠ sid → session_states w2 !! sid' = session_states w !! sid')
  ∧ timeout_tasks w2 = delete sid (timeout_tasks w)
  ∧ loop_tasks w2 =
      match timeout_tasks w !! sid with
      | Some handle => alter cancelled handle (loop_tasks w)
      | None => loop_tasks w
      end
  ∧ now w2 = now w
  ∧ phrase_log w2 = phrase_log w
  ∧ (∀ sid', sid' ≠ sid →
       conversation_memories w2 !! sid' = conversation_memories w !! sid').
Proof.
  unfold open_session, cancel_previous_timeout, cancel. exec.
  destruct (session_states w !! sid) as [st|] eqn:Hst; exec;
    destruct (timeout_tasks w !! sid) as [h|] eqn:Hh; exec;
    repeat split; try done.
  all: try (intros sid' Hne; by rewrite ?lookup_alter_ne, ?lookup_insert_ne).
  all: symmetry; by apply delete_id.
Qed.

Lemma dispatch_effect message w :
  (∀ sid', sid' ≠ session_id message →
     session_states (dispatch graph message w).2 !! sid' = session_states w !! sid')
  ∧ timeout_tasks (dispatch graph message w).2 = timeout_tasks w
  ∧ conversation_memories (dispatch graph message w).2 = conversation_memories w
  ∧ loop_tasks (dispatch graph message w).2 = loop_tasks w
  ∧ now (dispatch graph message w).2 = now w
  ∧ phrase_log (dispatch graph message w).2 = phrase_log w
  ∧ (∀ state, session_states w !! session_id message = Some state →
       ∃ state',
         session_states (dispatch graph message w).2 !! session_id message
           = Some state'
         ∧ last_interaction_time state' = last_interaction_time state).
Proof.
  unfold dispatch, record_interaction, node_id_of. exec.
  destruct (session_states w !! session_id message) as [st|] eqn:Hst; exec;
    [|by repeat split].
  repeat (exec; match goal with
          | |- context [if ?b then _ else _] => destruct b eqn:?
          | |- context [lift ?o] => destruct o eqn:?
          | |- context [match i_node_id ?ni with _ => _ end] =>
              destruct (i_node_id ni) eqn:?
          | |- context [match ?o with Return _ => _ | Raise _ => _ end] =>
              destruct o eqn:?
          end); exec; repeat split; try done;
    try (intros sid' Hne; by rewrite ?lookup_alter_ne);
    intros state [= <-]; eexists; (split; [reflexivity|]); done.
Qed.

Lemma chat_stages message w :
  let sid := session_id message in
  ∃ w2,
    session_states w2 !! sid
      = Some (set_last_interaction_time (now w)
                (default (fresh_state (now w)) (session_states w !! sid)))
    ∧ (∀ sid', sid' ≠ sid → session_states w2 !! sid' = session_states w !! sid')
    ∧ timeout_tasks w2 = delete sid (timeout_tasks w)
    ∧ loop_tasks w2 =
        match timeout_tasks w !! sid with
        | Some handle => alter cancelled handle (loop_tasks w)
        | None => loop_tasks w
        end
    ∧ now w2 = now w
    ∧ phrase_log w2 = phrase_log w
    ∧ (∀ sid', sid' ≠ sid →
         conversation_memories w2 !! sid' = conversation_memories w !! sid')
    ∧ match dispatch graph message w2 with
      | (Raise e, w3) => chat graph gemini message w = (Raise e, w3)
      | (Return (raw, type, is_end), w3) =>
          ∃ response w' state,
            chat graph gemini message w = (Return response, w')
            ∧ session_states w' = session_states w3
            ∧ session_states w3 !! sid = Some state
            ∧ last_interaction_time state = now w
            ∧ phrase_log w' = phrase_log w ++ [phrase_call raw sid is_end type]
            ∧ now w' = now w
            ∧ is_Some (conversation_memories w' !! sid)
            ∧ (∀ sid', sid' ≠ sid →
                 conversation_memories w' !! sid'
                 = conversation_memories w !! sid')
            ∧ if waiting_for_answer state then
                timeout_tasks w' = <[sid := length (loop_tasks w2)]> (timeout_tasks w2)
                ∧ loop_tasks w' = loop_tasks w2 ++ [new_task sid (now w)]
              else
                timeout_tasks w' = timeout_tasks w2
                ∧ loop_tasks w' = loop_tasks w2
      end.
Proof.
  intros sid. subst sid.
  destruct (prelude_effect (session_id message) w)
    as (H1 & H2 & Hs & Hso & Ht & Hl & Hn & Hp & Hm).
  set (w1 := (open_session (session_id message) w).2) in *.
  set (w2 := (cancel_previous_timeout (session_id message) w1).2) in *.
  exists w2. repeat (split; [done|]).
  unfold chat. cbn [bind]. rewrite H1, H2.
  destruct (dispatch_effect message w2) as (_ & Ht3 & Hm3 & Hl3 & Hn3 & Hp3 & Hs3).
  destruct (Hs3 _ Hs) as (state & Hstate & Htime).
  destruct (dispatch graph message w2) as [[[[raw type] is_end]|e] w3];
    simpl in *; [|done].
  destruct (generate_llm_response_effect raw (session_id message) is_end
              type w3)
    as (response & w4 & -> & Hs4 & Ht4 & Hl4 & Hn4 & Hp4 & Hm4 & Hmo4).
  rewrite <- Hs4 in Hstate.
  destruct (schedule_timeout_effect _ _ _ Hstate)
    as (w5 & -> & Hs5 & Hm5 & Hn5 & Hp5 & Hw).
  exists response, w5, state. simpl.
  split; [done|]. split; [congruence|]. split; [congruence|].
  split; [done|].
  split; [congruence|]. split; [congruence|]. split; [by rewrite Hm5|].
  split.
  - intros sid' Hne. rewrite Hm5, Hmo4, Hm3 by done. by apply Hm.
  - destruct (waiting_for_answer state); destruct Hw as [-> ->];
      by rewrite ?Hl4, ?Ht4, ?Hl3, ?Ht3, ?Hn4, ?Hn3, ?Hn.
Qed.

End Stages.

(** Settles the tests on values that are known. *)
Ltac settle :=
  repeat (first
    [ rewrite bool_decide_eq_true_2 by done
    | rewrite bool_decide_eq_false_2 by done
    | rewrite andb_false_r | rewrite andb_true_r
    | rewrite orb_false_r | rewrite orb_true_r
    | progress exec
    | progress fields ]).

Section Transitions.
Variable graph : Query → option Row.
Variable gemini : GeminiCall → option pystr.

Lemma conversation_inv st a b c d :
  conversation st = (a, b, c, d) →
  emergency st = a ∧ last_node_id st = b ∧ last_node_type st = c
  ∧ waiting_for_answer st = d.
Proof. unfold conversation. by intros [= -> -> -> ->]. Qed.

Lemma conversation_of_lookup w sid st :
  session_states w !! sid = Some st → conversation_of w sid = conversation st.
Proof. unfold conversation_of. by intros ->. Qed.

Lemma conversation_stamped w sid :
  conversation
    (set_last_interaction_time (now w)
       (default (fresh_state (now w)) (session_states w !! sid)))
  = conversation_of w sid.
Proof. unfold conversation_of. by destruct (session_states w !! sid). Qed.

(** The start of every proof about a request: the state found by the
    branches of the handler. *)
Ltac start_request message w Hpre :=
  let w2 := fresh "w2" in
  destruct (chat_stages graph gemini message w)
    as (w2 & Hs & Hso & Ht & Hl & Hn & Hp & Hm & Hd);
  rewrite <- (conversation_stamped w (session_id message)) in Hpre;
  revert Hs Hpre;
  generalize (set_last_interaction_time (now w)
                (default (fresh_state (now w))
                   (session_states w !! session_id message)));
  intros [e i t wt lt] Hs Hpre;
  apply conversation_inv in Hpre as (He & Hi & Htype & Hw);
  fields; subst e i t wt.

(** Reads the session's dict left by the branch. *)
Ltac known_state Hs Hstate :=
  exec_step;
  rewrite ?lookup_alter_eq, ?lookup_insert_eq, ?Hs in Hstate;
  cbn [fmap option_fmap option_map found without_node_id i_type i_content
       i_node_id i_is_end] in Hstate;
  fields; injection Hstate as <-; fields.

(** X4. When a session has no emergency and the text contains no
    keyword, the request is answered normally: the not-identified message
    goes to the phrasing step as a clarify, without the escalation flag;
    the session stays without emergency and no timeout is armed. *)
Theorem unrecognized_text_asks_again (message : UserMessage) (w : World) :
  let sid := session_id message in
  let r := chat graph gemini message w in
  conversation_of w sid = (None, None, None, false) →
  str_in_list (strip (lower (text message))) RESET_COMMANDS = false →
  identify_emergency (text message) = Return NOT_IDENTIFIED →
  (∃ response, r.1 = Return response)
  ∧ conversation_of r.2 sid = (None, None, None, false)
  ∧ phrase_log r.2
    = phrase_log w ++ [phrase_call (Some NOT_IDENTIFIED) sid false TClarify]
  ∧ timeout_tasks r.2 !! sid = None.
Proof.
  intros sid r Hpre Hreset Hid. subst sid r.
  start_request message w Hpre.
  revert Hd. unfold dispatch. settle. rewrite Hreset, Hid. settle.
  unfold str_eqb at 1. settle.
  intros (response & w' & state & -> & Hs' & Hstate & _ & Hp' & _ & _ & _ & Hw).
  simpl. known_state Hs Hstate. destruct Hw as [Ht' _].
  unfold conversation_of. rewrite Hs'. settle.
  repeat split; try done; [by eexists|].
  by rewrite Ht', Ht, lookup_delete_eq.
Qed.




(** During a flow of steps the text of the message plays no part. *)
Lemma dispatch_in_step_flow (message : UserMessage) (w2 : World)
    (state : SessionState) :
  session_states w2 !! session_id message = Some state →
  last_node_type state = Some TStep →
  waiting_for_answer state = false →
  is_Some (emergency state) →
  str_in_list (strip (lower (text message))) RESET_COMMANDS = false →
  dispatch graph message w2 =
  bind (lift (get_next_interaction graph (session_id message)
                (emergency state) None (last_node_id state) (Some TStep) false))
       (record_interaction (session_id message)) w2.
Proof.
  intros Hs Htype Hw [n Hn] Hreset. destruct state as [e i t wt lt].
  fields. subst. unfold dispatch. settle. rewrite Hreset. settle.
  assert (Hsame : get_next_interaction graph (session_id message) (Some n)
                    (Some (text message)) i (Some TStep) false
                  = get_next_interaction graph (session_id message) (Some n)
                      None i (Some TStep) false).
  { unfold get_next_interaction. by rewrite !andb_false_l. }
  rewrite Hsame.
  destruct (str_eqb _ _); settle; [done|].
  destruct (get_next_interaction _ _ _ _ _ _ _) as [ni|e] eqn:Hni;
    settle; [|done].
  apply get_next_interaction_node_id in Hni as [_ Hend].
  unfold record_interaction, node_id_of. settle.
  destruct (i_node_id ni); settle; [|done].
  destruct (i_is_end ni); [by specialize (Hend eq_refl) | done].
Qed.

(** X8. While a session stands on a step, all messages that are not
    reset commands are handled alike: the command "siguiente paso" and
    any other text give the same response and the same process state. *)
Theorem step_flow_ignores_text
    (message message' : UserMessage) (w : World) (name : option pystr)
    (id : option Z) :
  session_id message' = session_id message →
  conversation_of w (session_id message) = (name, id, Some TStep, false) →
  is_Some name →
  str_in_list (strip (lower (text message))) RESET_COMMANDS = false →
  str_in_list (strip (lower (text message'))) RESET_COMMANDS = false →
  chat graph gemini message' w = chat graph gemini message w.
Proof.
  intros Hsid Hpre Hname Hreset Hreset'.
  destruct message' as [text' sid']. cbn [session_id text] in *. subst sid'.
  destruct (prelude_effect (session_id message) w) as (H1 & H2 & Hs & _).
  set (w1 := (open_session (session_id message) w).2) in *.
  set (w2 := (cancel_previous_timeout (session_id message) w1).2) in *.
  unfold chat. cbn [bind session_id]. rewrite H1, H2.
  rewrite <- (conversation_stamped w (session_id message)) in Hpre.
  apply conversation_inv in Hpre as (He & Hi & Ht & Hw).
  rewrite (dispatch_in_step_flow message w2 _ Hs Ht Hw); [|by rewrite He|done].
  by rewrite (dispatch_in_step_flow
                {| text := text'; session_id := session_id message |} w2 _
                Hs Ht Hw); [|by rewrite He|done].
Qed.

End Transitions.



Section Invariants.
Variable graph : Query → option Row.
Variable gemini : GeminiCall → option pystr.

Lemma reachable_shape_stamped t st :
  reachable_shape st → reachable_shape (set_last_interaction_time t st).
Proof. done. Qed.

Lemma reachable_shape_fresh t : reachable_shape (fresh_state t).
Proof. by left. Qed.

Lemma node_id_type sid name input id type waiting ni :
  get_next_interaction graph sid name input id type waiting = Return ni →
  is_Some (i_node_id ni) →
  i_type ni = TQuestion ∨ i_type ni = TStep.
Proof.
  intros [Hiff _]%get_next_interaction_node_id [v Hv].
  destruct (i_type ni); try (by left); try (by right);
    (assert (i_node_id ni = None) as Hnone by (by apply Hiff); congruence).
Qed.

Lemma dispatch_shaped message w state :
  session_states w !! session_id message = Some state →
  reachable_shape state →
  ∀ state',
    session_states (dispatch graph message w).2 !! session_id message
      = Some state' →
    reachable_shape state'.
Proof.
  intros Hs Hshape. unfold dispatch, record_interaction, node_id_of. exec.
  destruct state as [e i t wt lt].
  assert (Hrec : ∀ ni name input id type waiting v,
    get_next_interaction graph (session_id message) name input id type waiting
      = Return ni →
    i_node_id ni = Some v →
    ∀ e' i' lt', is_Some e' →
      reachable_shape
        {| emergency := e'; last_node_id := i';
           last_node_type := Some (i_type ni);
           waiting_for_answer := bool_decide (i_type ni = TQuestion);
           last_interaction_time := lt' |}).
  { intros ni name input id type waiting v Hni Hv e' i' lt' He'.
    assert (is_Some (i_node_id ni)) as Hsome by (by apply (mk_is_Some _ v)).
    destruct (node_id_type _ _ _ _ _ _ _ Hni Hsome) as [Hq|Hq];
      rewrite Hq; [right; left | right; right]; by repeat split. }
  repeat (exec; fields; match goal with
          | |- context [if ?b then _ else _] => destruct b eqn:?
          | |- context [lift ?o] => destruct o eqn:?
          | |- context [match i_node_id ?ni with _ => _ end] =>
              destruct (i_node_id ni) eqn:?
          | |- context [match ?o with Return _ => _ | Raise _ => _ end] =>
              destruct o eqn:?
          end); exec; fields; intros state' [= <-]; fields;
    try done; try (by left).
  all: try match goal with
       | H : get_next_interaction _ _ _ _ _ _ _ = Return ?a,
         H1 : i_node_id ?a = Some _, H2 : i_is_end ?a = true |- _ =>
           apply get_next_interaction_node_id in H as [_ H];
           rewrite (H H2) in H1; done
       end.
  all: try (eapply Hrec; [eassumption..|]).
  all: try (by eexists).
  all: destruct Hshape as [(?&?&?)|[(?&?&?)|(?&?&?)]]; fields; subst;
    try done; try (by destruct e; [eexists|]).
  all: repeat (case_bool_decide; simplify_eq);
    rewrite ?andb_false_r in *; done.
Qed.

Lemma chat_final_sessions message w :
  let sid := session_id message in
  let r := chat graph gemini message w in
  (∀ sid', sid' ≠ sid → session_states r.2 !! sid' = session_states w !! sid')
  ∧ ∃ w2 state,
      session_states w2 !! sid
        = Some (set_last_interaction_time (now w)
                  (default (fresh_state (now w)) (session_states w !! sid)))
      ∧ session_states r.2 !! sid = Some state
      ∧ session_states (dispatch graph message w2).2 !! sid = Some state
      ∧ last_interaction_time state = now w.
Proof.
  intros sid r. subst sid r.
  destruct (chat_stages graph gemini message w)
    as (w2 & Hs & Hso & _ & _ & _ & _ & _ & Hd).
  destruct (dispatch_effect graph message w2) as (Hso3 & _ & _ & _ & _ & _ & Hs3).
  destruct (Hs3 _ Hs) as (state & Hstate & Htime).
  destruct (dispatch graph message w2) as [[[[raw type] is_end]|e] w3]
    eqn:Hdisp; simpl in *.
  - destruct Hd as (response & w' & state' & -> & Hs' & _). simpl.
    rewrite Hs'. split.
    + intros sid' Hne. by rewrite Hso3, Hso.
    + exists w2, state. rewrite Hdisp. by repeat split.
  - rewrite Hd. simpl. split.
    + intros sid' Hne. by rewrite Hso3, Hso.
    + exists w2, state. rewrite Hdisp. by repeat split.
Qed.

Lemma chat_shaped message : preserves sessions_shaped (chat graph gemini message).
Proof.
  intros w HI sid state.
  destruct (chat_final_sessions message w)
    as (Hother & w2 & state' & Hs & Hstate & Hd & _).
  destruct (decide (sid = session_id message)) as [->|Hne].
  - rewrite Hstate. intros [= <-].
    eapply (dispatch_shaped message w2); [exact Hs| |exact Hd].
    apply reachable_shape_stamped.
    destruct (session_states w !! session_id message) as [st|] eqn:Hst;
      simpl; [by eapply HI | apply reachable_shape_fresh].
  - rewrite Hother by done. apply HI.
Qed.

Lemma wake_shaped handle : preserves sessions_shaped (wake handle).
Proof.
  intros w HI. unfold wake, reset_if_no_response. exec.
  destruct (loop_tasks w !! handle) as [task|]; exec; [|done].
  destruct (status task); exec; try done.
  case_bool_decide; exec; [|done].
  destruct (session_states w !! task_session task) as [st|] eqn:Hst;
    exec; [|done].
  case_bool_decide; exec; [|done].
  intros sid state. exec_step.
  destruct (decide (sid = task_session task)) as [->|Hne].
  - rewrite lookup_insert_eq. intros [= <-]. apply reachable_shape_fresh.
  - rewrite lookup_insert_ne by done. apply HI.
Qed.

Lemma run_all_shaped es w :
  sessions_shaped w → sessions_shaped (run_all graph gemini es w).
Proof.
  revert w. induction es as [|e es IH]; simpl; [done|].
  intros w HI. apply IH. destruct e as [message|dt|handle]; simpl.
  - by apply chat_shaped.
  - done.
  - by apply wake_shaped.
Qed.

Lemma shaped_never_invalid (graph' : Query → option Row) sid input state ni :
  reachable_shape state →
  get_next_interaction graph' sid (emergency state) input
    (last_node_id state) (last_node_type state) (waiting_for_answer state)
    = Return ni →
  i_type ni ≠ TError.
Proof.
  unfold get_next_interaction.
  intros [(Ht&Hi&Hw)|[(Ht&Hw&_)|(Ht&Hw&_)]]; rewrite Ht, Hw; try rewrite Hi;
    simpl; intros H; repeat case_match; simplify_eq; done.
Qed.
End Invariants.

Section Timers.
Variable graph : Query → option Row.
Variable gemini : GeminiCall → option pystr.

Lemma cancelled_not_sleeping task : status (cancelled task) ≠ Sleeping.
Proof. unfold cancelled. by destruct (status task) eqn:Hs; simpl; rewrite ?Hs. Qed.

(** The timers after a request: the previous task of the session is
    cancelled, and at most one task is added. *)
Lemma chat_timers message w :
  let sid := session_id message in
  let r := chat graph gemini message w in
  let base :=
    match timeout_tasks w !! sid with
    | Some handle => alter cancelled handle (loop_tasks w)
    | None => loop_tasks w
    end in
  (timeout_tasks r.2 = delete sid (timeout_tasks w) ∧ loop_tasks r.2 = base)
  ∨ (timeout_tasks r.2 = <[sid := length base]> (delete sid (timeout_tasks w))
     ∧ loop_tasks r.2 = base ++ [new_task sid (now w)]
     ∧ ∃ state,
         session_states r.2 !! sid = Some state
         ∧ waiting_for_answer state = true
         ∧ last_interaction_time state = now w).
Proof.
  intros sid r base. subst sid r base.
  destruct (chat_stages graph gemini message w)
    as (w2 & Hs & _ & Ht & Hl & _ & _ & _ & Hd).
  destruct (dispatch_effect graph message w2) as (_ & Ht3 & _ & Hl3 & _).
  destruct (dispatch graph message w2) as [[[[raw type] is_end]|e] w3];
    simpl in *.
  - destruct Hd as (response & w' & state & -> & Hs' & Hstate & Htime & _ & _
                    & _ & _ & Hw). simpl.
    destruct (waiting_for_answer state) eqn:Hwait; destruct Hw as [-> ->].
    + right. rewrite Ht, Hl. repeat split; try done.
      exists state. by rewrite Hs'.
    + left. by rewrite Ht, Hl.
  - rewrite Hd. simpl. left. by rewrite Ht3, Hl3, Ht, Hl.
Qed.




End Timers.

Section Requests.
Variable graph : Query → option Row.
Variable gemini : GeminiCall → option pystr.

(** What a raising branch leaves in the session's dict. *)
Lemma dispatch_raise_state message w state e :
  session_states w !! session_id message = Some state →
  (dispatch graph message w).1 = Raise e →
  e = KeyError (py "node_id")
  ∧ (session_states (dispatch graph message w).2 !! session_id message
       = Some state
     ∨ ∃ name,
         str_in_list (strip (lower (text message))) RESET_COMMANDS = false
         ∧ identify_emergency (text message) = Return name
         ∧ graph (FirstEvaluation (Some name)) = None
         ∧ session_states (dispatch graph message w).2 !! session_id message
           = Some (set_waiting_for_answer false
                     (set_last_node_type None
                        (set_last_node_id None
                           (set_emergency (Some name) state))))).
Proof.
  intros Hs Hraise.
  pose proof (dispatch_raises graph message w e (mk_is_Some _ _ Hs) Hraise)
    as ->.
  split; [done|]. revert Hraise.
  unfold dispatch, record_interaction, node_id_of. exec.
  repeat (exec; match goal with
          | |- context [if ?b then _ else _] => destruct b eqn:?
          | |- context [lift ?o] => destruct o eqn:?
          | |- context [match i_node_id ?ni with _ => _ end] =>
              destruct (i_node_id ni) eqn:?
          | |- context [match ?o with Return _ => _ | Raise _ => _ end] =>
              destruct o eqn:?
          end); exec; try done; intros _; try (by left).
  all: right; eexists; split; [done|]; split; [done|].
  all: match goal with
       | H : get_next_interaction _ _ _ _ _ _ _ = _ |- _ =>
           unfold get_next_interaction in H; simpl in H;
           destruct (graph (FirstEvaluation _)); simplify_eq/=; done
       end.
Qed.

Lemma dispatch_outcome_conversation message w w' state state' :
  session_states w !! session_id message = Some state →
  session_states w' !! session_id message = Some state' →
  conversation state' = conversation state →
  (dispatch graph message w').1 = (dispatch graph message w).1.
Proof.
  intros Hs Hs' Hconv. destruct state as [e i t wt lt].
  apply conversation_inv in Hconv as (He & Hi & Ht & Hw).
  destruct state' as [e' i' t' wt' lt']. fields. subst.
  unfold dispatch, record_interaction, node_id_of. exec.
  repeat (exec; fields; match goal with
          | |- context [if ?b then _ else _] => destruct b eqn:?
          | |- context [lift ?o] => destruct o eqn:?
          | |- context [match i_node_id ?ni with _ => _ end] =>
              destruct (i_node_id ni) eqn:?
          | |- context [match ?o with Return _ => _ | Raise _ => _ end] =>
              destruct o eqn:?
          end); exec; done.
Qed.

Lemma dispatch_entry_retry message w name lt :
  session_states w !! session_id message
    = Some {| emergency := Some name; last_node_id := None;
              last_node_type := None; waiting_for_answer := false;
              last_interaction_time := lt |} →
  str_in_list (strip (lower (text message))) RESET_COMMANDS = false →
  graph (FirstEvaluation (Some name)) = None →
  (dispatch graph message w).1 = Raise (KeyError (py "node_id")).
Proof.
  intros Hs Hreset Hrow.
  unfold dispatch, record_interaction, node_id_of. settle.
  rewrite Hreset. settle. unfold get_next_interaction. settle.
  rewrite Hrow. settle. done.
Qed.

Lemma chat_raise_dispatch message w e :
  (chat graph gemini message w).1 = Raise e →
  ∃ w2,
    session_states w2 !! session_id message
      = Some (set_last_interaction_time (now w)
                (default (fresh_state (now w))
                   (session_states w !! session_id message)))
    ∧ timeout_tasks w2 = delete (session_id message) (timeout_tasks w)
    ∧ phrase_log w2 = phrase_log w
    ∧ (dispatch graph message w2).1 = Raise e
    ∧ (chat graph gemini message w).2 = (dispatch graph message w2).2.
Proof.
  intros Hraise.
  destruct (chat_stages graph gemini message w)
    as (w2 & Hs & _ & Ht & _ & _ & Hp & _ & Hd).
  exists w2. repeat (split; [done|]).
  destruct (dispatch graph message w2) as [[[[raw type] is_end]|e'] w3].
  - destruct Hd as (response & w' & state & Hchat & _).
    rewrite Hchat in Hraise. done.
  - rewrite Hd in Hraise |- *. simpl in *. by simplify_eq.
Qed.

Lemma dispatch_raise_chat message w e :
  (∀ w2,
     session_states w2 !! session_id message
       = Some (set_last_interaction_time (now w)
                 (default (fresh_state (now w))
                    (session_states w !! session_id message))) →
     (dispatch graph message w2).1 = Raise e) →
  (chat graph gemini message w).1 = Raise e.
Proof.
  intros Hdispatch.
  destruct (chat_stages graph gemini message w) as (w2 & Hs & _ & _ & _ & _ & _ & _ & Hd).
  specialize (Hdispatch w2 Hs).
  destruct (dispatch graph message w2) as [[[[raw type] is_end]|e'] w3];
    simpl in *; [done|]. rewrite Hd. simpl. by injection Hdispatch as ->.
Qed.


(** X11. A message that failed fails again, with the same exception,
    when it is sent again at any later time. *)
Theorem failed_request_fails_again
    (message : UserMessage) (w : World) (e : exn) (dt : N) :
  (chat graph gemini message w).1 = Raise e →
  (chat graph gemini message
     (run graph gemini (Elapse dt) (chat graph gemini message w).2)).1
  = Raise e.
Proof.
  intros Hraise.
  destruct (chat_raise_dispatch message w e Hraise)
    as (w2 & Hs & _ & _ & Hd & ->).
  destruct (dispatch_raise_state message w2 _ e Hs Hd) as [-> Hstate].
  apply dispatch_raise_chat. intros w2'. cbn [run with_now session_states now].
  destruct Hstate as [->|(name & Hreset & _ & Hrow & ->)]; simpl; intros Hs'.
  - rewrite <- Hd. by eapply dispatch_outcome_conversation.
  - by apply (dispatch_entry_retry message w2' name
                 (now (dispatch graph message w2).2 + Z.of_N dt)).
Qed.

(** X12. A request changes nothing of the other sessions: their state,
    their registered timeout task and their conversation memory are as
    before, and so is every task except the one registered for the
    session of the request. *)
Theorem other_sessions_untouched
    (message : UserMessage) (w : World) (sid' : pystr) :
  let r := chat graph gemini message w in
  sid' ≠ session_id message →
  session_states r.2 !! sid' = session_states w !! sid'
  ∧ timeout_tasks r.2 !! sid' = timeout_tasks w !! sid'
  ∧ conversation_memories r.2 !! sid' = conversation_memories w !! sid'
  ∧ ∀ handle task,
      loop_tasks w !! handle = Some task →
      timeout_tasks w !! session_id message ≠ Some handle →
      loop_tasks r.2 !! handle = Some task.
Proof.
  intros r Hne. subst r.
  destruct (chat_final_sessions graph gemini message w) as (Hother & _).
  split; [by apply Hother|].
  pose proof (chat_timers graph gemini message w) as Htimers. simpl in Htimers.
  destruct (chat_stages graph gemini message w)
    as (w2 & _ & _ & _ & _ & _ & _ & Hm & Hd).
  destruct (dispatch_effect graph message w2) as (_ & _ & Hm3 & _).
  assert (Hbase : ∀ handle task,
    loop_tasks w !! handle = Some task →
    timeout_tasks w !! session_id message ≠ Some handle →
    match timeout_tasks w !! session_id message with
    | Some h => alter cancelled h (loop_tasks w)
    | None => loop_tasks w
    end !! handle = Some task).
  { intros handle task Hh Hreg.
    destruct (timeout_tasks w !! session_id message) as [h|]; [|done].
    rewrite list_lookup_alter_ne; [done | congruence]. }
  split; [|split].
  - destruct Htimers as [[-> _]|(-> & _)];
      by rewrite ?lookup_insert_ne, lookup_delete_ne.
  - destruct (dispatch graph message w2) as [[[[raw type] is_end]|e] w3];
      simpl in *.
    + destruct Hd as (response & w' & state & -> & _ & _ & _ & _ & _ & _ & Hm' & _).
      simpl. by apply Hm'.
    + rewrite Hd. simpl. rewrite Hm3. by apply Hm.
  - intros handle task Hh Hreg.
    destruct Htimers as [[_ ->]|(_ & -> & _)]; [by apply Hbase|].
    apply lookup_app_l_Some. by apply Hbase.
Qed.
End Requests.

Section Reachable.
Variable graph : Query → option Row.
Variable gemini : GeminiCall → option pystr.

(** X13. In every state the process reaches, a session has no node, or
    waits for the answer to a question of a selected emergency, or stands
    on a step of a selected emergency without waiting. So a session waits
    exactly when its last node is a question, the node type 'end' is
    never stored, and the resolver, called on the state of a session,
    never returns its invalid-state error. *)
Theorem reachable_session_shapes
    (t0 : Z) (es : list Event) (sid : pystr) (state : SessionState) :
  session_states (run_all graph gemini es (initial_world t0)) !! sid
    = Some state →
  reachable_shape state
  ∧ (waiting_for_answer state = true ↔ last_node_type state = Some TQuestion)
  ∧ last_node_type state ≠ Some TEnd
  ∧ ∀ graph' sid' input ni,
      get_next_interaction graph' sid' (emergency state) input
        (last_node_id state) (last_node_type state) (waiting_for_answer state)
        = Return ni →
      i_type ni ≠ TError.
Proof.
  intros Hstate.
  assert (Hshape : reachable_shape state).
  { eapply (run_all_shaped graph gemini es (initial_world t0)); [|exact Hstate].
    intros sid' st. simpl. by rewrite lookup_empty. }
  split; [done|]. split; [|split].
  - destruct Hshape as [(Ht&_&Hw)|[(Ht&Hw&_)|(Ht&Hw&_)]]; rewrite Ht, Hw;
      split; done.
  - by destruct Hshape as [(Ht&_&_)|[(Ht&_&_)|(Ht&_&_)]]; rewrite Ht.
  - intros graph' sid' input ni. by apply shaped_never_invalid.
Qed.

End Reachable.

Section Remaining.
Variable graph : Query → option Row.
Variable gemini : GeminiCall → option pystr.

(** X15. Every request cancels the timeout task registered for its
    session. When the request is answered, a new task, due sixty seconds
    later, is registered exactly when the session waits for an answer;
    when the request fails, none is. *)
Theorem timeout_armed_iff_waiting (message : UserMessage) (w : World) :
  let sid := session_id message in
  let r := chat graph gemini message w in
  (∀ handle old,
     timeout_tasks w !! sid = Some handle →
     loop_tasks w !! handle = Some old →
     loop_tasks r.2 !! handle = Some (cancelled old)
     ∧ status (cancelled old) ≠ Sleeping)
  ∧ (∀ response,
       r.1 = Return response →
       ∃ state,
         session_states r.2 !! sid = Some state
         ∧ (waiting_for_answer state = true ↔
            ∃ handle,
              timeout_tasks r.2 !! sid = Some handle
              ∧ loop_tasks r.2 !! handle = Some (new_task sid (now w))))
  ∧ (∀ e, r.1 = Raise e → timeout_tasks r.2 !! sid = None).
Proof.
  intros sid r. subst sid r.
  destruct (chat_timeout graph gemini message w) as (Hcancel & Hreturn & Hraise).
  split; [|split; [|done]].
  - intros handle old Hreg Hold. split; [by eapply Hcancel|].
    apply cancelled_not_sleeping.
  - intros response Hr. destruct (Hreturn _ Hr) as (state & Hstate & Hw).
    exists state. split; [done|].
    destruct (waiting_for_answer state).
    + split; [intros _|done]. destruct Hw as (handle & ? & ?). by exists handle.
    + split; [done|]. intros (handle & Hh & _). congruence.
Qed.

(** X16. The phrasing step never raises: it returns the model's reply,
    or, when the model fails, the fixed call-an-ambulance sentence if the
    escalation flag is set and else the sentence quoting the raw content.
    It leaves the sessions and the timers alone, creates the memory of the
    session only when there is none, and with the escalation flag its
    response does not depend on the node type. *)
Theorem phrasing_always_answers
    (raw : option pystr) (sid : pystr) (is_end : bool) (type : NodeType)
    (w : World) :
  let r := _generate_llm_response gemini raw sid is_end type w in
  ∃ response,
    r.1 = Return response
    ∧ ((∃ call, gemini call = Some response)
       ∨ (∃ call, gemini call = None)
         ∧ response = if is_end then FALLBACK_END else fallback raw)
    ∧ session_states r.2 = session_states w
    ∧ timeout_tasks r.2 = timeout_tasks w
    ∧ loop_tasks r.2 = loop_tasks w
    ∧ is_Some (conversation_memories r.2 !! sid)
    ∧ (is_Some (conversation_memories w !! sid) →
       conversation_memories r.2 = conversation_memories w)
    ∧ ∀ type',
        (_generate_llm_response gemini raw sid true type' w).1
        = (_generate_llm_response gemini raw sid true type w).1.
Proof.
  intros r. subst r.
  assert (Hoverride : ∀ type',
    (_generate_llm_response gemini raw sid true type' w).1
    = (_generate_llm_response gemini raw sid true type w).1).
  { intros type'. unfold _generate_llm_response. exec.
    destruct (conversation_memories w !! sid); exec;
      destruct type, type'; by destruct (gemini _). }
  revert Hoverride. generalize (_generate_llm_response gemini raw sid true).
  intros escalation Hoverride.
  unfold _generate_llm_response. exec.
  destruct (conversation_memories w !! sid) eqn:Hmem; exec;
    destruct (gemini _) eqn:Hreply; exec; destruct is_end; exec;
    eexists; (split; [reflexivity|]);
    (split; [first [left; by eexists | right; split; [by eexists|done]]|]);
    repeat split; try done; rewrite ?Hmem, ?lookup_insert_eq; try done;
    by intros [? [=]].
Qed.


End Remaining.

Lemma startswith_app (p q s : pystr) :
  startswith (p ++ q) s = true → startswith p s = true.
Proof.
  revert s. induction p as [|a p IH]; intros s; [by destruct s|].
  destruct s as [|b s]; simpl; [done|].
  intros [-> ?]%andb_true_iff. simpl. by apply IH.
Qed.

Lemma contains_app (p q s : pystr) :
  contains (p ++ q) s = true → contains p s = true.
Proof.
  induction s as [|b s IH]; simpl.
  - rewrite !orb_false_r. apply startswith_app.
  - intros [H|H]%orb_true_iff; apply orb_true_iff;
      [left; by eapply startswith_app | right; by apply IH].
Qed.

(** X18. In the answer query the test for "not" never decides: a text
    that contains "not" contains "no". *)
Theorem not_test_is_redundant (user_input_text : pystr) :
  negative (strip (lower user_input_text))
    = contains (py "no") (strip (lower user_input_text))
  ∧ answer_rel_type user_input_text
    = if affirmative (strip (lower user_input_text)) then Some SI
      else if contains (py "no") (strip (lower user_input_text)) then Some NO
      else None.
Proof.
  assert (Hneg : ∀ r, negative r = contains (py "no") r).
  { intros r. unfold negative.
    destruct (contains (py "no") r) eqn:Hno; [done|]. simpl.
    destruct (contains (py "not") r) eqn:Hnot; [|done].
    change (py "not") with (py "no" ++ py "t") in Hnot.
    apply contains_app in Hnot. congruence. }
  split; [apply Hneg|].
  rewrite <- Hneg. unfold answer_rel_type, affirmative, negative. done.
Qed.

(* ===================================================================== *)
(** * The further properties on the sample deployment *)
(* ===================================================================== *)

Lemma identify_emergency_priority_witness :
  (∃ winner name,
     contains winner (lower (py "Quemadura electrica en la mano")) = true
     ∧ dict_get emergency_keywords winner = Some name
     ∧ identify_emergency (py "Quemadura electrica en la mano") = Return name
     ∧ ∀ other,
         other ∈ keys emergency_keywords →
         contains other (lower (py "Quemadura electrica en la mano")) = true →
         other = winner ∨ outranks (keys emergency_keywords) winner other)
  ∧ identify_emergency (py "Quemadura electrica en la mano")
    ≠ Return (py "Quemaduras Eléctricas").
Proof.
  split.
  - apply (proj1 identify_emergency_priority
             (py "Quemadura electrica en la mano") (py "electrica")).
    + vm_compute. do 2 right. left.
    + vm_compute. reflexivity.
  - apply (proj2 identify_emergency_priority
             (py "Quemadura electrica en la mano")).
    vm_compute. reflexivity.
Defined.

Lemma unrecognized_text_asks_again_witness :
  let r := chat sample_graph echo_model (says "Me corté un dedo")
             (initial_world 0) in
  (∃ response, r.1 = Return response)
  ∧ conversation_of r.2 s1 = (None, None, None, false)
  ∧ phrase_log r.2
    = phrase_log (initial_world 0)
      ++ [phrase_call (Some NOT_IDENTIFIED) s1 false TClarify]
  ∧ timeout_tasks r.2 !! s1 = None.
Proof.
  apply (unrecognized_text_asks_again sample_graph echo_model
           (says "Me corté un dedo") (initial_world 0));
    vm_compute; reflexivity.
Defined.




Lemma step_flow_ignores_text_witness :
  chat sample_graph echo_model (says "siguiente paso") in_step_flow
  = chat sample_graph echo_model (says "¿y ahora qué hago?") in_step_flow.
Proof.
  apply (step_flow_ignores_text sample_graph echo_model
           (says "¿y ahora qué hago?") (says "siguiente paso") in_step_flow
           (Some (py "Hemorragia Severa")) (Some 20)).
  - reflexivity.
  - vm_compute; reflexivity.
  - by eexists.
  - vm_compute; reflexivity.
  - vm_compute; reflexivity.
Defined.



Lemma failed_request_fails_again_witness :
  (chat sample_graph echo_model (says "tal vez")
     (run sample_graph echo_model (Elapse 5000000)
        (chat sample_graph echo_model (says "tal vez") asked).2)).1
  = Raise (KeyError (py "node_id")).
Proof.
  apply (failed_request_fails_again sample_graph echo_model (says "tal vez")
           asked (KeyError (py "node_id")) 5000000).
  vm_compute; reflexivity.
Defined.

Lemma other_sessions_untouched_witness :
  let r := chat sample_graph echo_model (s2_says "Tengo una hemorragia")
             asked in
  session_states r.2 !! s1 = session_states asked !! s1
  ∧ timeout_tasks r.2 !! s1 = timeout_tasks asked !! s1
  ∧ conversation_memories r.2 !! s1 = conversation_memories asked !! s1
  ∧ ∀ handle task,
      loop_tasks asked !! handle = Some task →
      timeout_tasks asked !! session_id (s2_says "Tengo una hemorragia")
        ≠ Some handle →
      loop_tasks r.2 !! handle = Some task.
Proof.
  apply (other_sessions_untouched sample_graph echo_model
           (s2_says "Tengo una hemorragia") asked s1).
  intros H. vm_compute in H. discriminate H.
Defined.

Lemma reachable_session_shapes_witness :
  let state := {| emergency := Some (py "Hemorragia Severa");
                  last_node_id := Some 20; last_node_type := Some TStep;
                  waiting_for_answer := false; last_interaction_time := 0 |} in
  reachable_shape state
  ∧ (waiting_for_answer state = true ↔ last_node_type state = Some TQuestion)
  ∧ last_node_type state ≠ Some TEnd
  ∧ ∀ graph' sid' input ni,
      get_next_interaction graph' sid' (emergency state) input
        (last_node_id state) (last_node_type state) (waiting_for_answer state)
        = Return ni →
      i_type ni ≠ TError.
Proof.
  apply (reachable_session_shapes sample_graph echo_model 0
           [Request (says "Tengo una hemorragia"); Request (says "sí")] s1).
  vm_compute; reflexivity.
Defined.


Lemma timeout_armed_iff_waiting_witness :
  (∃ state,
     session_states
       (chat sample_graph echo_model (says "Tengo una hemorragia")
          (initial_world 0)).2 !! s1 = Some state
     ∧ (waiting_for_answer state = true ↔
        ∃ handle,
          timeout_tasks
            (chat sample_graph echo_model (says "Tengo una hemorragia")
               (initial_world 0)).2 !! s1 = Some handle
          ∧ loop_tasks
              (chat sample_graph echo_model (says "Tengo una hemorragia")
                 (initial_world 0)).2 !! handle
            = Some (new_task s1 (now (initial_world 0)))))
  ∧ timeout_tasks (chat sample_graph echo_model (says "tal vez") asked).2 !! s1
    = None.
Proof.
  split.
  - apply (proj1 (proj2 (timeout_armed_iff_waiting sample_graph echo_model
                           (says "Tengo una hemorragia") (initial_world 0)))
             (py "La pregunta es: '¿La herida sangra abundantemente?'. Por favor, formúlala en un tono calmado y amigable.")).
    vm_compute; reflexivity.
  - apply (proj2 (proj2 (timeout_armed_iff_waiting sample_graph echo_model
                           (says "tal vez") asked))
             (KeyError (py "node_id"))).
    vm_compute; reflexivity.
Defined.
